(** * Inventory vs Sales DOI dashboard (app.py): a shallow embedding

    The Streamlit script [app.py] reads two CSV tables, aggregates them with
    pandas, left-joins inventory against windowed sales, derives the
    Days-Of-Inventory metric, filters a denylist of product names, sorts the
    result and lets the user re-slice it.  This file embeds that pipeline as
    Rocq functions over lists of records and proves properties of it.

    Modelling conventions:
    - a pandas frame is the list of its rows, in row order; a frame read
      from a CSV file additionally carries the names of its columns;
    - an object column that may hold NaN is an [option string]; a groupby
      key column is a [string], since groupby drops the rows with a missing
      key;
    - text is a Rocq [string] holding the bytes of the UTF-8 encoding of a
      Python [str]; the upper-casing of line 48 is modelled on ASCII text,
      and the statements that depend on it say so;
    - numeric measure columns are int64 columns: a [Z] with the wrap-around
      of int64 addition written out;
    - float64 values are IEEE 754 binary64 numbers, as [spec_float] with
      precision 53 and maximal exponent 1024;
    - [ORDERED_DATE] after [pd.to_datetime] is a timestamp, a [Z];
    - the value [x] of the number-input widget is a Python int, a [Z]. *)

From Stdlib Require Import ZArith String Ascii SpecFloat Lia.
From stdpp Require Import base decidable option list sorting strings gmap.

Local Open Scope Z_scope.

(** ** int64 columns *)

Module Int64.

Definition modulus : Z := 2 ^ 64.
Definition half_modulus : Z := 2 ^ 63.

(** The two's-complement value an int64 register holds for [z]. *)
Definition wrap (z : Z) : Z := (z + half_modulus) mod modulus - half_modulus.

Definition add (a b : Z) : Z := wrap (a + b).

(** [Series.sum()] of an int64 column. *)
Definition sum (l : list Z) : Z := foldl add 0 l.

End Int64.

(** ** float64 values *)

Module Float64.

Definition prec : Z := 53.
Definition emax : Z := 1024.

Definition t : Type := spec_float.

Definition zero : t := S754_zero false.

(** int -> float conversion, round to nearest even. *)
Definition of_int (z : Z) : t := binary_normalize prec emax z 0 false.

(** True division [a / b]. *)
Definition div (a b : t) : t := SFdiv prec emax a b.

Definition ltb (a b : t) : bool := SFltb a b.
Definition eqb (a b : t) : bool := SFeqb a b.

Definition is_nan (a : t) : bool :=
  match a with S754_nan => true | _ => false end.

Definition is_inf (a : t) : bool :=
  match a with S754_infinity _ => true | _ => false end.

(** Nearest integer to [n / d] for [0 <= n] and [0 < d], ties to even. *)
Definition div_half_even (n d : Z) : Z :=
  let q := n / d in
  let r := n mod d in
  match 2 * r ?= d with
  | Lt => q
  | Gt => q + 1
  | Eq => if Z.even q then q else q + 1
  end.

(** The magnitude of [m * 2^e] times [10^2], rounded half to even. *)
Definition hundredths (m : positive) (e : Z) : Z :=
  if 0 <=? e then 100 * Z.pos m * 2 ^ e
  else div_half_even (100 * Z.pos m) (2 ^ (- e)).

(** Python's [round(v, 2)] on a float: the decimal with two fractional
    digits nearest to the exact value of [v] (ties to even), converted back
    to the nearest float.  Zeros, infinities and NaN round to themselves. *)
Definition round2 (v : t) : t :=
  match v with
  | S754_finite s m e =>
      match hundredths m e with
      | Z.pos k => SFdiv prec emax (S754_finite s k 0) (S754_finite false 100 0)
      | _ => S754_zero s
      end
  | _ => v
  end.

(** [np.floor]. *)
Definition floor (v : t) : t :=
  match v with
  | S754_finite s m e =>
      if 0 <=? e then v
      else
        let d := 2 ^ (- e) in
        let q := Z.pos m / d in
        if s then
          binary_normalize prec emax (- (if Z.pos m mod d =? 0 then q else q + 1)) 0 true
        else binary_normalize prec emax q 0 false
  | _ => v
  end.

(** The integer part of a float, as [astype(int)] takes it (toward zero);
    the cast of NaN or an infinity is the smallest int64. *)
Definition trunc (v : t) : Z :=
  match v with
  | S754_zero _ => 0
  | S754_finite s m e =>
      let a := if 0 <=? e then Z.pos m * 2 ^ e else Z.pos m / 2 ^ (- e) in
      if s then - a else a
  | _ => - Int64.half_modulus
  end.

End Float64.

(** ** Text *)

Definition ascii_upper (c : ascii) : ascii :=
  let n := N_of_ascii c in
  if ((97 <=? n) && (n <=? 122))%N then ascii_of_N (n - 32) else c.

Definition ascii_lower (c : ascii) : ascii :=
  let n := N_of_ascii c in
  if ((65 <=? n) && (n <=? 90))%N then ascii_of_N (n + 32) else c.

(** [str.upper()] on the ASCII letters.  Python's method maps the letters
    outside ASCII as well; the statements that depend on the upper-casing of
    a text are stated for text written in ASCII, on which the two agree. *)
Fixpoint str_upper (s : string) : string :=
  match s with
  | EmptyString => EmptyString
  | String c s' => String (ascii_upper c) (str_upper s')
  end.

(** What follows [pre] in [s], when [s] starts with [pre]. *)
Fixpoint strip_prefix (pre s : string) : option string :=
  match pre, s with
  | EmptyString, _ => Some s
  | String _ _, EmptyString => None
  | String a pre', String c s' => if Ascii.eqb a c then strip_prefix pre' s' else None
  end.

(** The letters outside ASCII that a pattern compiled with [re.IGNORECASE]
    takes for an ASCII letter, in UTF-8: U+0130 (capital I with a dot,
    bytes 196 176) and U+0131 (dotless i, bytes 196 177) for i, U+212A (the
    Kelvin sign, bytes 226 132 170) for k, and U+017F (long s, bytes
    197 191) for s. *)
Definition further_letters (p : ascii) : list string :=
  let l := ascii_lower p in
  if Ascii.eqb l "i" then
    [String "196" (String "176" EmptyString); String "196" (String "177" EmptyString)]
  else if Ascii.eqb l "k" then
    [String "226" (String "132" (String "170" EmptyString))]
  else if Ascii.eqb l "s" then
    [String "197" (String "191" EmptyString)]
  else [].

(** The remainders of [s] after one character that the pattern character
    [p] matches when case is ignored: an ASCII character that is [p] up to
    its case, or one of the further letters of [p]. *)
Definition match_char (p : ascii) (s : string) : list string :=
  match s with
  | EmptyString => []
  | String c s' => if Ascii.eqb (ascii_lower p) (ascii_lower c) then [s'] else []
  end
  ++ omap (fun sp => strip_prefix sp s) (further_letters p).

(** Does the literal [pat], made of ASCII characters, match at the start of
    [s], ignoring case? *)
Fixpoint match_here (pat s : string) : bool :=
  match pat with
  | EmptyString => true
  | String p pat' => existsb (match_here pat') (match_char p s)
  end.

(** [re.search] of an alternation of literals with [re.IGNORECASE]: try
    every alternative at every position, left to right. *)
Fixpoint re_search (alts : list string) (s : string) : bool :=
  existsb (fun pat => match_here pat s) alts
  || match s with
     | EmptyString => false
     | String _ s' => re_search alts s'
     end.

(** [Series.str.contains(pat, case=False, na=na)] on one cell of an object
    column: a missing cell yields [na]. *)
Definition str_contains (alts : list string) (na : bool) (cell : option string) : bool :=
  match cell with
  | Some s => re_search alts s
  | None => na
  end.

(** ** Generic frame operations *)

Section Lists.
Context {A : Type}.

(** [Series.tail(n)]: the last [n] entries; none for [n = 0]; all but the
    first [-n] for a negative [n]. *)
Definition tail (n : Z) (l : list A) : list A :=
  if n =? 0 then []
  else if 0 <? n then drop (length l - Z.to_nat n) l
  else drop (Z.to_nat (- n)) l.

(** [drop_duplicates()] / [unique()]: the first occurrence of every value
    is kept, in order of appearance. *)
Fixpoint drop_duplicates `{EqDecision A} (l : list A) : list A :=
  match l with
  | [] => []
  | a :: l' => a :: filter (fun b => b <> a) (drop_duplicates l')
  end.

(** A stable sort by the comparison [leb]. *)
Fixpoint insert_by (leb : A -> A -> bool) (a : A) (l : list A) : list A :=
  match l with
  | [] => [a]
  | b :: l' => if leb a b then a :: l else b :: insert_by leb a l'
  end.

Definition sort_by (leb : A -> A -> bool) (l : list A) : list A :=
  foldr (insert_by leb) [] l.
End Lists.

Section GroupBy.
Context {R K : Type} `{EqDecision K}.
Variable leb : K -> K -> bool.
(** The key of a row; [None] when one of the key cells is missing. *)
Variable key : R -> option K.

(** The group keys of [df.groupby(keys)]: the distinct keys, sorted; rows
    with a missing key belong to no group. *)
Definition group_keys (df : list R) : list K :=
  sort_by leb (drop_duplicates (omap key df)).

Definition group_rows (df : list R) (k : K) : list R :=
  filter (fun r => key r = Some k) df.

Definition groupby (df : list R) : list (K * list R) :=
  (fun k => (k, group_rows df k)) <$> group_keys df.
End GroupBy.

(** Tuples of key columns compare lexicographically, strings by code. *)
Definition key3 : Type := string * string * string.

Definition key3_leb (a b : key3) : bool :=
  match String.compare a.1.1 b.1.1 with
  | Lt => true
  | Gt => false
  | Eq =>
      match String.compare a.1.2 b.1.2 with
      | Lt => true
      | Gt => false
      | Eq => String.leb a.2 b.2
      end
  end.

(** ** The frames of the script *)

(** A frame read by [pd.read_csv]: the column names of the file and its
    rows.  A field of a row whose column is not in the file is never read:
    the first access to the column raises. *)
Record Csv (R : Type) : Type := { columns : list string; rows : list R }.
Arguments columns {R} _.
Arguments rows {R} _.

Module Inventory.
Record row : Type := {
  City : option string;
  SkuDescription : option string;
  SkuCode : option string;
  OpenPoQuantity : Z;
  WarehouseQtyAvailable : Z }.
End Inventory.

(** [inventory_agg]: one row per group of (City, SkuDescription, SkuCode). *)
Module InventoryAgg.
Record row : Type := {
  City : string;
  SkuDescription : string;
  SkuCode : string;
  OpenPoQuantity : Z;
  WarehouseQtyAvailable : Z }.
End InventoryAgg.

(** [inventory_renamed]. *)
Module InventoryRenamed.
Record row : Type := {
  CITY : string;
  ITEM_CODE : string;
  PRODUCT_NAME : string;
  OPEN_PO_QUANTITY : Z;
  WAREHOUSE_QTY : Z }.
End InventoryRenamed.

(** [Sales_df]; the column PRODUCT_NAME is assigned by the script. *)
Module Sales.
Record row : Type := {
  ORDERED_DATE : Z;
  CITY : option string;
  ITEM_CODE : option string;
  UNITS_SOLD : Z;
  PRODUCT_NAME : option string }.
End Sales.

(** [sales_filtered_grouped_df] and its projection [sales_selected]. *)
Module SalesGrouped.
Record row : Type := {
  CITY : string;
  PRODUCT_NAME : string;
  ITEM_CODE : string;
  UNITS_SOLD : Z }.
End SalesGrouped.

(** [merged_df], once UNITS_SOLD is filled and DAILY_SALES and DOI are
    added. *)
Module Merged.
Record row : Type := {
  CITY : string;
  ITEM_CODE : string;
  PRODUCT_NAME : string;
  OPEN_PO_QUANTITY : Z;
  WAREHOUSE_QTY : Z;
  UNITS_SOLD : Z;
  DAILY_SALES : Float64.t;
  DOI : Float64.t }.
End Merged.

(** [final_df]. *)
Module Final.
Record row : Type := {
  CITY : string;
  ITEM_CODE : string;
  PRODUCT_NAME : string;
  UNITS_SOLD : Z;
  WAREHOUSE_QTY : Z;
  OPEN_PO_QUANTITY : Z;
  DOI : Float64.t }.
End Final.

(** The re-grouped frames of the custom view: [label] is the CITY or the
    PRODUCT_NAME column, whichever the view groups by. *)
Module Grouped.
Record row : Type := {
  label : string;
  UNITS_SOLD : Z;
  WAREHOUSE_QTY : Z;
  OPEN_PO_QUANTITY : Z;
  DAILY_SALES : Float64.t;
  DOI : Float64.t }.
End Grouped.

(** ** Inventory aggregation (lines 21-28) *)

Definition inventory_key (r : Inventory.row) : option key3 :=
  c ← Inventory.City r; d ← Inventory.SkuDescription r; s ← Inventory.SkuCode r;
  Some (c, d, s).

Definition inventory_agg (Inventory_df : list Inventory.row) : list InventoryAgg.row :=
  (fun g : key3 * list Inventory.row =>
     {| InventoryAgg.City := g.1.1.1;
        InventoryAgg.SkuDescription := g.1.1.2;
        InventoryAgg.SkuCode := g.1.2;
        InventoryAgg.OpenPoQuantity := Int64.sum (Inventory.OpenPoQuantity <$> g.2);
        InventoryAgg.WarehouseQtyAvailable :=
          Int64.sum (Inventory.WarehouseQtyAvailable <$> g.2) |})
  <$> groupby key3_leb inventory_key Inventory_df.

(** [set_index('SkuCode')['SkuDescription'].to_dict()]: a later row
    overwrites an earlier one with the same SkuCode. *)
Definition item_to_product_map (agg : list InventoryAgg.row) : gmap string string :=
  foldl (fun d r => <[InventoryAgg.SkuCode r := InventoryAgg.SkuDescription r]> d) ∅ agg.

(** [Sales_df['PRODUCT_NAME'] = Sales_df['ITEM_CODE'].map(d)]. *)
Definition assign_product_name (d : gmap string string) (r : Sales.row) : Sales.row :=
  {| Sales.ORDERED_DATE := Sales.ORDERED_DATE r;
     Sales.CITY := Sales.CITY r;
     Sales.ITEM_CODE := Sales.ITEM_CODE r;
     Sales.UNITS_SOLD := Sales.UNITS_SOLD r;
     Sales.PRODUCT_NAME := code ← Sales.ITEM_CODE r; d !! code |}.

(** ** Window selection (lines 35-40) *)

Definition unique_days (Sales_df : list Sales.row) : nat :=
  length (drop_duplicates (Sales.ORDERED_DATE <$> Sales_df)).

Definition recent_dates (Sales_df : list Sales.row) (x : Z) : list Z :=
  tail x (sort_by Z.leb (drop_duplicates (Sales.ORDERED_DATE <$> Sales_df))).

Definition filter_recent (Sales_df : list Sales.row) (x : Z) : list Sales.row :=
  filter (fun r => Sales.ORDERED_DATE r ∈ recent_dates Sales_df x) Sales_df.

(** ** Sales aggregation (lines 43-48) *)

Definition sales_key (r : Sales.row) : option key3 :=
  c ← Sales.CITY r; p ← Sales.PRODUCT_NAME r; i ← Sales.ITEM_CODE r;
  Some (c, p, i).

(** The groups are formed on the cities as they are spelled in the file;
    the CITY column of the grouped frame is upper-cased afterwards. *)
Definition sales_filtered_grouped_df (filtered_df : list Sales.row) : list SalesGrouped.row :=
  (fun g : key3 * list Sales.row =>
     {| SalesGrouped.CITY := str_upper g.1.1.1;
        SalesGrouped.PRODUCT_NAME := g.1.1.2;
        SalesGrouped.ITEM_CODE := g.1.2;
        SalesGrouped.UNITS_SOLD := Int64.sum (Sales.UNITS_SOLD <$> g.2) |})
  <$> groupby key3_leb sales_key filtered_df.

(** ** Renaming and merge (lines 51-71) *)

Definition inventory_renamed (agg : list InventoryAgg.row) : list InventoryRenamed.row :=
  (fun r =>
     {| InventoryRenamed.CITY := InventoryAgg.City r;
        InventoryRenamed.ITEM_CODE := InventoryAgg.SkuCode r;
        InventoryRenamed.PRODUCT_NAME := InventoryAgg.SkuDescription r;
        InventoryRenamed.OPEN_PO_QUANTITY := InventoryAgg.OpenPoQuantity r;
        InventoryRenamed.WAREHOUSE_QTY := InventoryAgg.WarehouseQtyAvailable r |})
  <$> agg.

Definition same_key (l : InventoryRenamed.row) (s : SalesGrouped.row) : Prop :=
  InventoryRenamed.CITY l = SalesGrouped.CITY s
  /\ InventoryRenamed.ITEM_CODE l = SalesGrouped.ITEM_CODE s
  /\ InventoryRenamed.PRODUCT_NAME l = SalesGrouped.PRODUCT_NAME s.

#[global] Instance same_key_dec l s : Decision (same_key l s).
Proof. unfold same_key. apply _. Defined.

(** The sales rows that one inventory row is joined with. *)
Definition matches (right : list SalesGrouped.row) (l : InventoryRenamed.row)
  : list SalesGrouped.row :=
  filter (same_key l) right.

(** [pd.merge(left, right, on=[CITY, ITEM_CODE, PRODUCT_NAME], how='left')]:
    the left rows in order, each once per matching right row (in the
    order of the right frame), or once with a missing UNITS_SOLD when no
    right row matches. *)
Definition merge_left (left : list InventoryRenamed.row) (right : list SalesGrouped.row)
  : list (InventoryRenamed.row * option Z) :=
  left ≫= fun l =>
    match matches right l with
    | [] => [(l, None)]
    | ms => (fun s => (l, Some (SalesGrouped.UNITS_SOLD s))) <$> ms
    end.

(** [fillna(0).astype(int)] on the joined UNITS_SOLD column.  The column is
    int64 when every row found a match; a missing entry makes it a float64
    column, whose entries are cast back after the fill. *)
Definition fill_units (has_nan : bool) (u : option Z) : Z :=
  if has_nan then
    Int64.wrap (Float64.trunc (default Float64.zero (Float64.of_int <$> u)))
  else default 0 u.

(** ** DOI calculation (lines 74-78) *)

(** [UNITS_SOLD / x]. *)
Definition daily_sales (units_sold x : Z) : Float64.t :=
  Float64.div (Float64.of_int units_sold) (Float64.of_int x).

(** The lambda applied to every row:
    [round(WAREHOUSE_QTY / DAILY_SALES, 2) if DAILY_SALES > 0 else 0]. *)
Definition doi_lambda (warehouse_qty : Z) (daily : Float64.t) : Float64.t :=
  if Float64.ltb Float64.zero daily
  then Float64.round2 (Float64.div (Float64.of_int warehouse_qty) daily)
  else Float64.zero.

Definition merged_row (x : Z) (has_nan : bool) (j : InventoryRenamed.row * option Z)
  : Merged.row :=
  let u := fill_units has_nan j.2 in
  let d := daily_sales u x in
  {| Merged.CITY := InventoryRenamed.CITY j.1;
     Merged.ITEM_CODE := InventoryRenamed.ITEM_CODE j.1;
     Merged.PRODUCT_NAME := InventoryRenamed.PRODUCT_NAME j.1;
     Merged.OPEN_PO_QUANTITY := InventoryRenamed.OPEN_PO_QUANTITY j.1;
     Merged.WAREHOUSE_QTY := InventoryRenamed.WAREHOUSE_QTY j.1;
     Merged.UNITS_SOLD := u;
     Merged.DAILY_SALES := d;
     Merged.DOI := doi_lambda (InventoryRenamed.WAREHOUSE_QTY j.1) d |}.

(** [merged_df] with its DAILY_SALES and DOI columns, before the exclusion
    filter. *)
Definition merged_of (x : Z) (joined : list (InventoryRenamed.row * option Z))
  : list Merged.row :=
  merged_row x (bool_decide (Exists (fun j => j.2 = None) joined)) <$> joined.

(** ** Exclusion filter (line 81) *)

Definition exclusion_terms : list string := ["gift"; "celebration"; "sample"].

(** The mask [str.contains(r'gift|celebration|sample', case=False, na=False)]
    on one cell. *)
Definition name_excluded (cell : option string) : bool :=
  str_contains exclusion_terms false cell.

(** [df[~mask]] for a frame whose product-name cell is read by [name]. *)
Definition exclusion_filter {R : Type} (name : R -> option string) (df : list R) : list R :=
  filter (fun r => name_excluded (name r) = false) df.

(** ** Final frame (lines 85-87) *)

Definition project_final (m : Merged.row) : Final.row :=
  {| Final.CITY := Merged.CITY m;
     Final.ITEM_CODE := Merged.ITEM_CODE m;
     Final.PRODUCT_NAME := Merged.PRODUCT_NAME m;
     Final.UNITS_SOLD := Merged.UNITS_SOLD m;
     Final.WAREHOUSE_QTY := Merged.WAREHOUSE_QTY m;
     Final.OPEN_PO_QUANTITY := Merged.OPEN_PO_QUANTITY m;
     Final.DOI := Float64.floor (Merged.DOI m) |}.

(** Descending order of a float column in [sort_values]: larger values
    first, NaN last. *)
Definition doi_desc_leb (a b : Float64.t) : bool :=
  match SFcompare a b with
  | Some Lt => false
  | Some _ => true
  | None => Float64.is_nan b
  end.

(** [by=['CITY', 'DOI'], ascending=[True, False]]. *)
Definition final_leb (r1 r2 : Final.row) : bool :=
  match String.compare (Final.CITY r1) (Final.CITY r2) with
  | Lt => true
  | Gt => false
  | Eq => doi_desc_leb (Final.DOI r1) (Final.DOI r2)
  end.

Definition sort_values (df : list Final.row) : list Final.row :=
  sort_by final_leb df.

(** ** The pipeline on the rows of the two files *)

Definition named_sales (Sales_df : list Sales.row) (Inventory_df : list Inventory.row)
  : list Sales.row :=
  assign_product_name (item_to_product_map (inventory_agg Inventory_df)) <$> Sales_df.

Definition sales_selected (Sales_df : list Sales.row) (Inventory_df : list Inventory.row)
    (x : Z) : list SalesGrouped.row :=
  sales_filtered_grouped_df (filter_recent (named_sales Sales_df Inventory_df) x).

(** [merged_df] as it stands after line 78. *)
Definition merged_df (Sales_df : list Sales.row) (Inventory_df : list Inventory.row)
    (x : Z) : list Merged.row :=
  merged_of x
    (merge_left (inventory_renamed (inventory_agg Inventory_df))
       (sales_selected Sales_df Inventory_df x)).

(** [merged_df] as it stands after line 81. *)
Definition merged_kept (merged : list Merged.row) : list Merged.row :=
  exclusion_filter (fun r => Some (Merged.PRODUCT_NAME r)) merged.

Definition final_of (merged : list Merged.row) : list Final.row :=
  sort_values (project_final <$> merged_kept merged).

Definition final_df (Sales_df : list Sales.row) (Inventory_df : list Inventory.row)
    (x : Z) : list Final.row :=
  final_of (merged_df Sales_df Inventory_df x).

(** ** Column look-ups on the uploaded files *)

(** The exceptions that end a run: pandas' [KeyError] for names that are
    not columns, and Streamlit's [StreamlitAPIException] for a number input
    whose default [value] lies above its [max_value]. *)
Inductive error : Type :=
  | KeyError (missing : list string)
  | StreamlitAPIException (value max_value : Z).

Definition missing_from (cols names : list string) : list string :=
  filter (fun n => n ∉ cols) names.

(** [df[col]], [df.groupby(keys)] and [grouped[col]] raise on the first name
    that is not a column. *)
Definition lookup_columns (cols names : list string) : error + unit :=
  match missing_from cols names with
  | [] => inr tt
  | n :: _ => inl (KeyError [n])
  end.

(** [grouped[[c1, c2]]] raises with all the names that are not columns. *)
Definition select_columns (cols names : list string) : error + unit :=
  match missing_from cols names with
  | [] => inr tt
  | ms => inl (KeyError ms)
  end.

(** Statements run in sequence; the first exception ends the run. *)
#[global] Instance error_bind : MBind (sum error) :=
  fun A B k r =>
    match r with
    | inl e => inl e
    | inr a => k a
    end.

(** [st.number_input(..., min_value=1, max_value=unique_days, value=7)]
    (line 36).  The call checks its default 7 against [max_value] every time
    the script runs and raises when the default lies above it; otherwise it
    returns the number [x] that the widget holds, which the page keeps
    between 1 and [max_value]. *)
Definition number_input (max_value : nat) (x : Z) : error + Z :=
  if Z.of_nat max_value <? 7
  then inl (StreamlitAPIException 7 (Z.of_nat max_value))
  else inr x.

(** The grouped frame as line 47 leaves it: the cities are still spelled as
    in the file (line 48 upper-cases them afterwards). *)
Definition sales_grouped_as_spelled (filtered_df : list Sales.row) : list SalesGrouped.row :=
  (fun g : key3 * list Sales.row =>
     {| SalesGrouped.CITY := g.1.1.1;
        SalesGrouped.PRODUCT_NAME := g.1.1.2;
        SalesGrouped.ITEM_CODE := g.1.2;
        SalesGrouped.UNITS_SOLD := Int64.sum (Sales.UNITS_SOLD <$> g.2) |})
  <$> groupby key3_leb sales_key filtered_df.

(** The script from line 17 to line 47, on the two uploaded files and the
    number [x] held by the number-input widget: the column look-ups in the
    order of the script, the widget of line 36 between the look-up of
    ORDERED_DATE (line 32) and that of CITY and UNITS_SOLD (line 44), and
    the two aggregations.  An uncaught exception ends the run; Streamlit
    shows it on the page in place of the tables.  The value is the grouped
    sales frame of line 47; every column has been looked up by then. *)
Definition run_aggregation (Sales_df : Csv Sales.row) (Inventory_df : Csv Inventory.row)
    (x : Z) : error + list SalesGrouped.row :=
  lookup_columns (columns Inventory_df) ["City"; "SkuDescription"; "SkuCode"] ;;
  select_columns (columns Inventory_df) ["OpenPoQuantity"; "WarehouseQtyAvailable"] ;;
  lookup_columns (columns Sales_df) ["ITEM_CODE"] ;;
  lookup_columns (columns Sales_df) ["ORDERED_DATE"] ;;
  x' ← number_input (unique_days (rows Sales_df)) x;
  lookup_columns ("PRODUCT_NAME" :: columns Sales_df) ["CITY"; "PRODUCT_NAME"; "ITEM_CODE"] ;;
  lookup_columns ("PRODUCT_NAME" :: columns Sales_df) ["UNITS_SOLD"] ;;
  inr (sales_grouped_as_spelled
         (filter_recent (named_sales (rows Sales_df) (rows Inventory_df)) x')).

Definition required_inventory_columns : list string :=
  ["City"; "SkuDescription"; "SkuCode"; "OpenPoQuantity"; "WarehouseQtyAvailable"].

Definition required_sales_columns : list string :=
  ["ITEM_CODE"; "ORDERED_DATE"; "CITY"; "UNITS_SOLD"].

(** ** Custom DOI view (lines 119-205) *)

Definition all_cities (final : list Final.row) : list string :=
  sort_by String.leb (drop_duplicates (Final.CITY <$> final)).

Definition all_products (final : list Final.row) : list string :=
  sort_by String.leb (drop_duplicates (Final.PRODUCT_NAME <$> final)).

(** A raw selection is explicit when it is not empty and has no "All". *)
Definition explicit (raw : list string) : bool :=
  negb (bool_decide (raw = [])) && negb (bool_decide ("All" ∈ raw)).

(** The options offered by the two multiselects. *)
Definition available_cities (final : list Final.row) (selected_products_raw : list string)
  : list string :=
  if explicit selected_products_raw
  then sort_by String.leb (drop_duplicates
         (Final.CITY <$> filter (fun r => Final.PRODUCT_NAME r ∈ selected_products_raw) final))
  else all_cities final.

Definition available_products (final : list Final.row) (selected_cities_raw : list string)
  : list string :=
  if explicit selected_cities_raw
  then sort_by String.leb (drop_duplicates
         (Final.PRODUCT_NAME <$> filter (fun r => Final.CITY r ∈ selected_cities_raw) final))
  else all_products final.

(** Step 4: "All" or an empty selection stands for every value. *)
Definition resolve (all raw : list string) : list string :=
  if bool_decide ("All" ∈ raw) || bool_decide (raw = []) then all else raw.

(** Step 5. *)
Definition filtered_df (final : list Final.row) (selected_cities selected_products : list string)
  : list Final.row :=
  filter (fun r => Final.CITY r ∈ selected_cities /\ Final.PRODUCT_NAME r ∈ selected_products)
    final.

(** Lines 173-177: DAILY_SALES is added and DOI is overwritten. *)
Definition recalculate (x : Z) (r : Final.row) : Merged.row :=
  let d := daily_sales (Final.UNITS_SOLD r) x in
  {| Merged.CITY := Final.CITY r;
     Merged.ITEM_CODE := Final.ITEM_CODE r;
     Merged.PRODUCT_NAME := Final.PRODUCT_NAME r;
     Merged.OPEN_PO_QUANTITY := Final.OPEN_PO_QUANTITY r;
     Merged.WAREHOUSE_QTY := Final.WAREHOUSE_QTY r;
     Merged.UNITS_SOLD := Final.UNITS_SOLD r;
     Merged.DAILY_SALES := d;
     Merged.DOI := doi_lambda (Final.WAREHOUSE_QTY r) d |}.

(** [groupby(col)[[UNITS_SOLD, WAREHOUSE_QTY, OPEN_PO_QUANTITY]].sum()] with
    the DAILY_SALES and DOI columns computed on the sums, DOI floored. *)
Definition regroup (col : Merged.row -> string) (x : Z) (df : list Merged.row)
  : list Grouped.row :=
  (fun g : string * list Merged.row =>
     let u := Int64.sum (Merged.UNITS_SOLD <$> g.2) in
     let w := Int64.sum (Merged.WAREHOUSE_QTY <$> g.2) in
     let d := daily_sales u x in
     {| Grouped.label := g.1;
        Grouped.UNITS_SOLD := u;
        Grouped.WAREHOUSE_QTY := w;
        Grouped.OPEN_PO_QUANTITY := Int64.sum (Merged.OPEN_PO_QUANTITY <$> g.2);
        Grouped.DAILY_SALES := d;
        Grouped.DOI := Float64.floor (doi_lambda w d) |})
  <$> groupby String.leb (fun r => Some (col r)) df.

(** What the custom section shows. *)
Inductive custom_view : Type :=
  | Prompt
  | ByCity (grouped : list Grouped.row)
  | ByProduct (grouped : list Grouped.row)
  | Detail (grouped : list Final.row).

Definition is_empty (raw : list string) : bool := bool_decide (raw = []).

Definition custom_doi_view (final : list Final.row) (x : Z)
    (selected_cities_raw selected_products_raw : list string) : custom_view :=
  let selected_cities := resolve (all_cities final) selected_cities_raw in
  let selected_products := resolve (all_products final) selected_products_raw in
  let filtered := filtered_df final selected_cities selected_products in
  if is_empty selected_cities_raw && is_empty selected_products_raw then Prompt
  else
    let recalculated := recalculate x <$> filtered in
    if negb (is_empty selected_cities_raw) && is_empty selected_products_raw
    then ByCity (regroup Merged.CITY x recalculated)
    else if negb (is_empty selected_products_raw) && is_empty selected_cities_raw
    then ByProduct (regroup Merged.PRODUCT_NAME x recalculated)
    else Detail (project_final <$> recalculated).

(** ** Statements of the specification *)

(** Two ASCII characters that are the upper and the lower case of one
    letter of the alphabet. *)
Definition case_pair (a b : ascii) : Prop :=
  ((65 <= N_of_ascii a <= 90)%N /\ N_of_ascii b = (N_of_ascii a + 32)%N)
  \/ ((65 <= N_of_ascii b <= 90)%N /\ N_of_ascii a = (N_of_ascii b + 32)%N).

Definition same_ascii (a b : ascii) : Prop := a = b \/ case_pair a b.

(** [sp] is the UTF-8 encoding of a character that is the ASCII character
    [p] when letter case is ignored: [p] in either case, or one of the four
    letters outside ASCII whose other case is an ASCII letter, namely
    U+0130 and U+0131 (I with and i without a dot) for i, U+212A (the Kelvin
    sign) for k and U+017F (the long s) for s. *)
Inductive same_letter (p : ascii) : string -> Prop :=
  | same_letter_ascii c : same_ascii p c -> same_letter p (String c EmptyString)
  | same_letter_dotted_I :
      same_ascii p "i" -> same_letter p (String "196" (String "176" EmptyString))
  | same_letter_dotless_i :
      same_ascii p "i" -> same_letter p (String "196" (String "177" EmptyString))
  | same_letter_kelvin :
      same_ascii p "k" ->
      same_letter p (String "226" (String "132" (String "170" EmptyString)))
  | same_letter_long_s :
      same_ascii p "s" -> same_letter p (String "197" (String "191" EmptyString)).

(** [text] spells [term] character by character, letter case ignored. *)
Inductive spelled : string -> string -> Prop :=
  | spelled_nil : spelled EmptyString EmptyString
  | spelled_cons p term sp text :
      same_letter p sp -> spelled term text ->
      spelled (String p term) (String.append sp text).

(** [name] contains [term] as a substring, letter case ignored. *)
Definition contains_ignoring_case (term name : string) : Prop :=
  exists pre mid suf : string,
    name = String.append pre (String.append mid suf) /\ spelled term mid.

(** [k] is the integer nearest to the exact product [100 * m * 2^e], and the
    even one of the two when the product lies halfway between them. *)
Definition nearest_hundredth (m : positive) (e : Z) (k : Z) : Prop :=
  if 0 <=? e then k = 100 * Z.pos m * 2 ^ e
  else
    2 * Z.abs (100 * Z.pos m - k * 2 ^ (- e)) <= 2 ^ (- e)
    /\ (2 * Z.abs (100 * Z.pos m - k * 2 ^ (- e)) = 2 ^ (- e) -> Z.even k = true).

(** [w] is [v] rounded to two decimals: for a finite [v] of magnitude
    [m * 2^e], the float quotient by 100 of the number of hundredths nearest
    to the exact value of [v], with the sign of [v] (a signed zero when
    there are no hundredths); a zero, an infinity and a NaN stay as they
    are. *)
Definition rounded_to_two_decimals (v w : Float64.t) : Prop :=
  match v with
  | S754_finite s m e =>
      exists k, nearest_hundredth m e k
        /\ w = match k with
               | Z.pos p =>
                   SFdiv Float64.prec Float64.emax (S754_finite s p 0)
                     (S754_finite false 100 0)
               | _ => S754_zero s
               end
  | _ => w = v
  end.

(** [a] is at least [b] as IEEE numbers, or [b] is a NaN (which the sort
    puts last). *)
Definition doi_at_least (a b : Float64.t) : Prop :=
  Float64.is_nan b = true
  \/ (Float64.is_nan a = false /\ Float64.is_nan b = false /\ SFleb b a = true).

(** In the final table an earlier row has the smaller city, or the same
    city and a DOI that is at least as large. *)
Definition city_then_doi_desc (r1 r2 : Final.row) : Prop :=
  String.ltb (Final.CITY r1) (Final.CITY r2) = true
  \/ (Final.CITY r1 = Final.CITY r2 /\ doi_at_least (Final.DOI r1) (Final.DOI r2)).

(** [g] is the aggregate of the rows of [final] in the city [Grouped.label g]
    for the window size [x]: the three quantities are summed over these
    rows, and DAILY_SALES and DOI are computed from the sums, DOI rounded to
    two decimals and then floored. *)
Definition city_aggregate (final : list Final.row) (x : Z) (g : Grouped.row) : Prop :=
  let rows := filter (fun r => Final.CITY r = Grouped.label g) final in
  Grouped.UNITS_SOLD g = Int64.sum (Final.UNITS_SOLD <$> rows)
  /\ Grouped.WAREHOUSE_QTY g = Int64.sum (Final.WAREHOUSE_QTY <$> rows)
  /\ Grouped.OPEN_PO_QUANTITY g = Int64.sum (Final.OPEN_PO_QUANTITY <$> rows)
  /\ Grouped.DAILY_SALES g = daily_sales (Grouped.UNITS_SOLD g) x
  /\ Grouped.DOI g
     = Float64.floor (doi_lambda (Grouped.WAREHOUSE_QTY g) (Grouped.DAILY_SALES g)).


(** The key of the join, on either side. *)
Definition inventory_join_key (l : InventoryRenamed.row) : key3 :=
  (InventoryRenamed.CITY l, InventoryRenamed.PRODUCT_NAME l, InventoryRenamed.ITEM_CODE l).

Definition sales_join_key (s : SalesGrouped.row) : key3 :=
  (SalesGrouped.CITY s, SalesGrouped.PRODUCT_NAME s, SalesGrouped.ITEM_CODE s).

(** The columns of a reconciled row that come from the inventory. *)
Definition inventory_part (m : Merged.row) : InventoryRenamed.row :=
  {| InventoryRenamed.CITY := Merged.CITY m;
     InventoryRenamed.ITEM_CODE := Merged.ITEM_CODE m;
     InventoryRenamed.PRODUCT_NAME := Merged.PRODUCT_NAME m;
     InventoryRenamed.OPEN_PO_QUANTITY := Merged.OPEN_PO_QUANTITY m;
     InventoryRenamed.WAREHOUSE_QTY := Merged.WAREHOUSE_QTY m |}.

(** No two cities of the sales file differ in letter case only. *)
Definition no_case_variants (Sales_df : list Sales.row) : Prop :=
  forall r1 r2 c1 c2,
    r1 ∈ Sales_df -> r2 ∈ Sales_df ->
    Sales.CITY r1 = Some c1 -> Sales.CITY r2 = Some c2 ->
    str_upper c1 = str_upper c2 -> c1 = c2.

(** ** Sample data *)

Definition sale (d : Z) (c i : string) (u : Z) : Sales.row :=
  {| Sales.ORDERED_DATE := d; Sales.CITY := Some c; Sales.ITEM_CODE := Some i;
     Sales.UNITS_SOLD := u; Sales.PRODUCT_NAME := None |}.

Definition stock (c d s : string) (po wh : Z) : Inventory.row :=
  {| Inventory.City := Some c; Inventory.SkuDescription := Some d;
     Inventory.SkuCode := Some s; Inventory.OpenPoQuantity := po;
     Inventory.WarehouseQtyAvailable := wh |}.

Definition sample_inventory : list Inventory.row :=
  [stock "MUMBAI" "Widget" "SKU1" 10 100; stock "MUMBAI" "Gift Box" "SKU2" 1 5;
   stock "DELHI" "Widget" "SKU1" 3 40; stock "DELHI" "Widget" "SKU1" 3 2].

(** Sales of [u] units a day on seven consecutive days. *)
Definition week_of_sales (c i : string) (u : Z) : list Sales.row :=
  (fun d => sale d c i u) <$> [1; 2; 3; 4; 5; 6; 7].

Definition sample_sales : list Sales.row :=
  week_of_sales "Mumbai" "SKU1" 1
  ++ [sale 7 "Delhi" "SKU1" 4; sale 7 "Pune" "SKU1" 4; sale 7 "Delhi" "SKU9" 4].

(** One inventory row, and a week of sales of its item in which the city
    is spelled "Mumbai" once and "MUMBAI" otherwise. *)
Definition mixed_case_inventory : list Inventory.row :=
  [stock "MUMBAI" "Widget" "SKU1" 10 100].

Definition mixed_case_sales : list Sales.row :=
  sale 1 "Mumbai" "SKU1" 5 :: week_of_sales "MUMBAI" "SKU1" 1.

(** Two items in one city. *)
Definition two_item_inventory : list Inventory.row :=
  [stock "MUMBAI" "Widget" "SKU1" 10 100; stock "MUMBAI" "Gadget" "SKU3" 4 30].

Definition two_item_sales : list Sales.row :=
  week_of_sales "Mumbai" "SKU1" 7 ++ week_of_sales "Mumbai" "SKU3" 3.

(** ** Further statements *)

(** The sum of a list of integers, without wrap-around. *)
Definition total (l : list Z) : Z := foldr Z.add 0 l.

(** The columns of a final row that come from the inventory. *)
Definition final_inventory_part (r : Final.row) : InventoryRenamed.row :=
  {| InventoryRenamed.CITY := Final.CITY r;
     InventoryRenamed.ITEM_CODE := Final.ITEM_CODE r;
     InventoryRenamed.PRODUCT_NAME := Final.PRODUCT_NAME r;
     InventoryRenamed.OPEN_PO_QUANTITY := Final.OPEN_PO_QUANTITY r;
     InventoryRenamed.WAREHOUSE_QTY := Final.WAREHOUSE_QTY r |}.

(** [g] is the aggregate of the rows of [final] with the product name
    [Grouped.label g] for the window size [x]. *)
Definition product_aggregate (final : list Final.row) (x : Z) (g : Grouped.row) : Prop :=
  let rows := filter (fun r => Final.PRODUCT_NAME r = Grouped.label g) final in
  Grouped.UNITS_SOLD g = Int64.sum (Final.UNITS_SOLD <$> rows)
  /\ Grouped.WAREHOUSE_QTY g = Int64.sum (Final.WAREHOUSE_QTY <$> rows)
  /\ Grouped.OPEN_PO_QUANTITY g = Int64.sum (Final.OPEN_PO_QUANTITY <$> rows)
  /\ Grouped.DAILY_SALES g = daily_sales (Grouped.UNITS_SOLD g) x
  /\ Grouped.DOI g
     = Float64.floor (doi_lambda (Grouped.WAREHOUSE_QTY g) (Grouped.DAILY_SALES g)).

(** The inventory rows whose three key cells are all present. *)
Definition keyed (Inventory_df : list Inventory.row) : list Inventory.row :=
  filter (fun r => is_Some (inventory_key r)) Inventory_df.


(** An inventory whose city is not written in upper case, and a week of
    sales of its item in that city. *)
Definition lower_case_inventory : list Inventory.row :=
  [stock "Pune" "Widget" "SKU1" 3 40].

Definition lower_case_sales : list Sales.row :=
  week_of_sales "Pune" "SKU1" 2.

(** A sales record counts for the aggregated sales when it names a city and
    an item code that stands on a row of the inventory with all its key
    cells. *)
Definition counted (Inventory_df : list Inventory.row) (r : Sales.row) : Prop :=
  is_Some (Sales.CITY r)
  /\ is_Some (Sales.ITEM_CODE r)
  /\ Exists (fun i => Inventory.SkuCode i = Sales.ITEM_CODE r) (keyed Inventory_df).

(** Text made of ASCII characters only. *)
Fixpoint is_ascii (s : string) : bool :=
  match s with
  | EmptyString => true
  | String c s' => (N_of_ascii c <? 128)%N && is_ascii s'
  end.

(** Every city of the sales file is written in ASCII. *)
Definition ascii_cities (Sales_df : list Sales.row) : bool :=
  forallb (fun r => match Sales.CITY r with Some c => is_ascii c | None => true end)
    Sales_df.

(** The check of [no_case_variants] on a given file. *)
Definition case_consistent (Sales_df : list Sales.row) : bool :=
  forallb (fun r1 =>
    forallb (fun r2 =>
      match Sales.CITY r1, Sales.CITY r2 with
      | Some c1, Some c2 => implb (String.eqb (str_upper c1) (str_upper c2)) (String.eqb c1 c2)
      | _, _ => true
      end) Sales_df) Sales_df.




(** * Properties *)

(** ** Lists: tail, drop_duplicates, sort_by *)

Section ListFacts.
Context {A : Type}.
Implicit Types l : list A.

Lemma tail_suffix (n1 n2 : Z) l :
  1 <= n1 -> n1 <= n2 -> tail n1 l `suffix_of` tail n2 l.
Proof.
  intros H1 H2. unfold tail.
  destruct (Z.eqb_spec n1 0) as [?|_]; [lia|].
  destruct (Z.eqb_spec n2 0) as [?|_]; [lia|].
  destruct (Z.ltb_spec 0 n1) as [_|?]; [|lia].
  destruct (Z.ltb_spec 0 n2) as [_|?]; [|lia].
  set (k1 := (length l - Z.to_nat n1)%nat).
  set (k2 := (length l - Z.to_nat n2)%nat).
  assert (Hk : (k2 <= k1)%nat) by (unfold k1, k2; lia).
  replace k1 with (k2 + (k1 - k2))%nat by lia.
  rewrite <- drop_drop. apply suffix_drop.
Qed.

Lemma tail_all (n : Z) l : Z.of_nat (length l) <= n -> 1 <= n -> tail n l = l.
Proof.
  intros Hlen Hn. unfold tail.
  destruct (Z.eqb_spec n 0) as [?|_]; [lia|].
  destruct (Z.ltb_spec 0 n) as [_|?]; [|lia].
  replace (length l - Z.to_nat n)%nat with 0%nat by lia. reflexivity.
Qed.

Lemma elem_of_drop_duplicates `{EqDecision A} l a :
  a ∈ drop_duplicates l <-> a ∈ l.
Proof.
  induction l as [|b l IH]; simpl; [reflexivity|].
  rewrite !elem_of_cons, list_elem_of_filter, IH.
  destruct (decide (a = b)); tauto.
Qed.

Lemma NoDup_drop_duplicates `{EqDecision A} l : NoDup (drop_duplicates l).
Proof.
  induction l as [|b l IH]; simpl; constructor.
  - rewrite list_elem_of_filter. intros [Hne _]. by apply Hne.
  - by apply NoDup_filter.
Qed.

Lemma insert_by_perm (leb : A -> A -> bool) a l : insert_by leb a l ≡ₚ a :: l.
Proof.
  induction l as [|b l IH]; simpl; [done|].
  destruct (leb a b); [done|]. rewrite IH. apply Permutation_swap.
Qed.

Lemma sort_by_perm (leb : A -> A -> bool) l : sort_by leb l ≡ₚ l.
Proof.
  induction l as [|a l IH]; simpl; [done|].
  unfold sort_by in *. simpl. rewrite insert_by_perm. by constructor.
Qed.

Lemma elem_of_sort_by (leb : A -> A -> bool) l a : a ∈ sort_by leb l <-> a ∈ l.
Proof. by rewrite sort_by_perm. Qed.

Lemma NoDup_sort_by (leb : A -> A -> bool) l : NoDup l -> NoDup (sort_by leb l).
Proof. by rewrite sort_by_perm. Qed.

Section Sortedness.
Variable leb : A -> A -> bool.
Hypothesis leb_total : forall a b, leb a b = true \/ leb b a = true.
Hypothesis leb_trans : forall a b c, leb a b = true -> leb b c = true -> leb a c = true.

Lemma insert_by_sorted a l :
  StronglySorted (fun b c => leb b c = true) l ->
  StronglySorted (fun b c => leb b c = true) (insert_by leb a l).
Proof using leb_total leb_trans.
  induction 1 as [|b l Hl IH Hb]; simpl.
  - repeat constructor.
  - destruct (leb a b) eqn:Hab.
    + constructor; [by constructor|].
      constructor; [exact Hab|].
      eapply Forall_impl; [exact Hb|]. intros c Hc. by eapply leb_trans.
    + constructor; [exact IH|].
      rewrite insert_by_perm. constructor; [|exact Hb].
      destruct (leb_total a b) as [Hba|Hba]; [congruence|exact Hba].
Qed.

Lemma sort_by_sorted l : StronglySorted (fun b c => leb b c = true) (sort_by leb l).
Proof using leb_total leb_trans.
  induction l as [|a l IH]; [constructor|].
  apply insert_by_sorted, IH.
Qed.
End Sortedness.
End ListFacts.

Lemma filter_ext_elem {A : Type} (P Q : A -> Prop)
    `{!forall a, Decision (P a)} `{!forall a, Decision (Q a)} (l : list A) :
  (forall a, a ∈ l -> P a <-> Q a) -> filter P l = filter Q l.
Proof.
  induction l as [|a l IH]; intros Hext; [done|].
  rewrite !filter_cons.
  rewrite IH by (intros b Hb; apply Hext; by right).
  destruct (decide (P a)) as [HP|HP], (decide (Q a)) as [HQ|HQ]; try done.
  - exfalso. apply HQ, Hext; [by left|done].
  - exfalso. apply HP, Hext; [by left|done].
Qed.

Lemma filter_all {A : Type} (l : list A) : filter (fun _ => True) l = l.
Proof.
  induction l as [|a l IH]; [done|].
  rewrite filter_cons. destruct (decide True); [|done]. by rewrite IH.
Qed.

(** ** Orders used by the sorts *)

Lemma ascii_compare_lt_trans (a b c : ascii) :
  Ascii.compare a b = Lt -> Ascii.compare b c = Lt -> Ascii.compare a c = Lt.
Proof. unfold Ascii.compare. rewrite !N.compare_lt_iff. lia. Qed.

Lemma str_compare_refl (a : string) : String.compare a a = Eq.
Proof.
  induction a as [|x a IH]; simpl; [done|].
  unfold Ascii.compare. by rewrite N.compare_refl.
Qed.

Lemma str_compare_lt_trans (a b c : string) :
  String.compare a b = Lt -> String.compare b c = Lt -> String.compare a c = Lt.
Proof.
  revert b c. induction a as [|x a IH]; intros [|y b] [|z c]; simpl; try done.
  destruct (Ascii.compare x y) eqn:Hxy; try done;
  destruct (Ascii.compare y z) eqn:Hyz; try done; intros H1 H2.
  - apply Ascii.compare_eq_iff in Hxy, Hyz. subst.
    replace (Ascii.compare z z) with Eq; [by eapply IH|].
    symmetry. unfold Ascii.compare. apply N.compare_refl.
  - apply Ascii.compare_eq_iff in Hxy. subst. by rewrite Hyz.
  - apply Ascii.compare_eq_iff in Hyz. subst. by rewrite Hxy.
  - by rewrite (ascii_compare_lt_trans x y z).
Qed.

Lemma str_leb_trans (a b c : string) :
  String.leb a b = true -> String.leb b c = true -> String.leb a c = true.
Proof.
  unfold String.leb.
  destruct (String.compare a b) eqn:Hab; [| |done];
  destruct (String.compare b c) eqn:Hbc; try done; intros _ _.
  - apply String.compare_eq_iff in Hab, Hbc. subst. by rewrite str_compare_refl.
  - apply String.compare_eq_iff in Hab. subst. by rewrite Hbc.
  - apply String.compare_eq_iff in Hbc. subst. by rewrite Hab.
  - by rewrite (str_compare_lt_trans a b c).
Qed.

Lemma SFcompare_antisym (a b : spec_float) :
  SFcompare a b = option_map CompOpp (SFcompare b a).
Proof.
  destruct a as [[]|[]| |[] m1 e1], b as [[]|[]| |[] m2 e2]; simpl; try reflexivity.
  all: rewrite (Z.compare_antisym e1 e2); destruct (e1 ?= e2); simpl; try reflexivity.
  all: change (Pos.compare_cont Eq ?a ?b) with (Pos.compare a b).
  all: rewrite (Pos.compare_antisym m1 m2); by destruct (m1 ?= m2)%positive.
Qed.

Lemma doi_desc_leb_total (a b : Float64.t) :
  doi_desc_leb a b = true \/ doi_desc_leb b a = true.
Proof.
  unfold doi_desc_leb. rewrite (SFcompare_antisym b a).
  destruct (SFcompare a b) as [[]|] eqn:H; simpl; auto.
  destruct a, b; simpl in *; auto; discriminate.
Qed.

Lemma doi_desc_leb_trans (a b c : Float64.t) :
  doi_desc_leb a b = true -> doi_desc_leb b c = true -> doi_desc_leb a c = true.
Proof.
  unfold doi_desc_leb.
  destruct a as [[]|[]| |[] m1 e1], b as [[]|[]| |[] m2 e2], c as [[]|[]| |[] m3 e3];
    simpl; try done.
  all: change (Pos.compare_cont Eq ?a ?b) with (Pos.compare a b).
  all: repeat match goal with
       | |- context [Z.compare ?a ?b] => destruct (Z.compare_spec a b)
       | |- context [Pos.compare ?a ?b] => destruct (Pos.compare_spec a b)
       end; simpl; try done; try lia.
Qed.

Lemma final_leb_total (r1 r2 : Final.row) :
  final_leb r1 r2 = true \/ final_leb r2 r1 = true.
Proof.
  unfold final_leb. rewrite (String.compare_antisym (Final.CITY r1)).
  destruct (String.compare (Final.CITY r2) (Final.CITY r1)); simpl; auto.
  apply doi_desc_leb_total.
Qed.

Lemma final_leb_trans (r1 r2 r3 : Final.row) :
  final_leb r1 r2 = true -> final_leb r2 r3 = true -> final_leb r1 r3 = true.
Proof.
  unfold final_leb.
  destruct (String.compare (Final.CITY r1) (Final.CITY r2)) eqn:H12; [| |done];
  destruct (String.compare (Final.CITY r2) (Final.CITY r3)) eqn:H23; try done.
  - apply String.compare_eq_iff in H12, H23. rewrite H12, H23, str_compare_refl.
    apply doi_desc_leb_trans.
  - apply String.compare_eq_iff in H12. by rewrite H12, H23.
  - apply String.compare_eq_iff in H23. by rewrite <- H23, H12.
  - by rewrite (str_compare_lt_trans _ _ _ H12 H23).
Qed.

Lemma doi_desc_leb_spec (a b : Float64.t) :
  doi_desc_leb a b = true <-> doi_at_least a b.
Proof.
  unfold doi_desc_leb, doi_at_least, SFleb. rewrite (SFcompare_antisym b a).
  destruct (SFcompare a b) as [[]|] eqn:Hab; simpl.
  - split; [intros _; right|done]. by destruct a, b.
  - split; [done|]. intros [Hb|(_ & _ & ?)]; [|done]. by destruct a, b.
  - split; [intros _; right|done]. by destruct a, b.
  - split; [by left|]. intros [?|(Ha & Hb & _)]; [done|]. by destruct a, b.
Qed.

Lemma final_leb_spec (r1 r2 : Final.row) :
  final_leb r1 r2 = true <-> city_then_doi_desc r1 r2.
Proof.
  unfold final_leb, city_then_doi_desc, String.ltb.
  rewrite <- doi_desc_leb_spec.
  destruct (String.compare (Final.CITY r1) (Final.CITY r2)) eqn:H; split.
  - intros Hd. right. split; [by apply String.compare_eq_iff|done].
  - by intros [?|[_ ?]].
  - by left.
  - done.
  - done.
  - intros [?|[Heq _]]; [done|]. by rewrite Heq, str_compare_refl in H.
Qed.

(** ** C7: the trailing window grows with its size *)

Lemma recent_dates_mono (Sales_df : list Sales.row) (n1 n2 : Z) (d : Z) :
  1 <= n1 -> n1 <= n2 ->
  d ∈ recent_dates Sales_df n1 -> d ∈ recent_dates Sales_df n2.
Proof.
  intros H1 H2 Hd. unfold recent_dates in *.
  eapply elem_of_suffix; [exact Hd|]. by apply tail_suffix.
Qed.

(** C7. For window sizes [1 <= n1 <= n2], every sales record that the window
    selector keeps under [n1] is also kept under [n2].  The bound of the
    sizes by the number of distinct dates is not needed. *)
Theorem window_monotone (Sales_df : list Sales.row) (n1 n2 : Z) :
  1 <= n1 -> n1 <= n2 ->
  filter_recent Sales_df n1 ⊆ filter_recent Sales_df n2.
Proof.
  intros H1 H2 r. unfold filter_recent. rewrite !list_elem_of_filter.
  intros [Hd Hr]. split; [|exact Hr]. by eapply recent_dates_mono.
Qed.

Lemma window_monotone_witness :
  1 <= 2 /\ 2 <= 7 /\ filter_recent sample_sales 2 ⊆ filter_recent sample_sales 7.
Proof. split; [lia|]. split; [lia|]. apply window_monotone; lia. Defined.

(** The records come out in file order, so the smaller window is even a
    sub-sequence of the larger one. *)
Lemma filter_sublist_mono {A : Type} (P Q : A -> Prop)
    `{!forall a, Decision (P a)} `{!forall a, Decision (Q a)} (l : list A) :
  (forall a, P a -> Q a) -> filter P l `sublist_of` filter Q l.
Proof.
  intros HPQ. induction l as [|a l IH]; [done|].
  rewrite !filter_cons. destruct (decide (P a)) as [HP|HP].
  - rewrite decide_True by auto. by constructor.
  - destruct (decide (Q a)); [by constructor|done].
Qed.

Lemma window_sublist (Sales_df : list Sales.row) (n1 n2 : Z) :
  1 <= n1 -> n1 <= n2 ->
  filter_recent Sales_df n1 `sublist_of` filter_recent Sales_df n2.
Proof.
  intros H1 H2. apply filter_sublist_mono.
  intros r. by apply recent_dates_mono.
Qed.

(** A window at least as long as the number of distinct dates keeps every
    record. *)
Lemma window_all (Sales_df : list Sales.row) (n : Z) :
  1 <= n -> Z.of_nat (unique_days Sales_df) <= n ->
  filter_recent Sales_df n = Sales_df.
Proof.
  intros H1 Hn. unfold filter_recent, recent_dates.
  rewrite tail_all; [|rewrite sort_by_perm; exact Hn|exact H1].
  rewrite (filter_ext_elem _ (fun _ => True)); [apply filter_all|].
  intros r Hr. split; [done|]. intros _.
  rewrite elem_of_sort_by, elem_of_drop_duplicates. by apply list_elem_of_fmap_2.
Qed.

(** ** The left join *)

Lemma same_key_join_key (l : InventoryRenamed.row) (s : SalesGrouped.row) :
  same_key l s <-> sales_join_key s = inventory_join_key l.
Proof.
  unfold same_key, sales_join_key, inventory_join_key. split.
  - by intros (-> & -> & ->).
  - by intros [= <- <- <-].
Qed.

(** The rows of the join: every row carries a left row; it carries the units
    of a right row with the same key, or no units when the right frame has
    no such row.  A right row whose key is on no left row is on no row of
    the join. *)
Lemma merge_left_rows (left : list InventoryRenamed.row) (right : list SalesGrouped.row)
    (l : InventoryRenamed.row) (o : option Z) :
  (l, o) ∈ merge_left left right
  <-> l ∈ left
      /\ ((matches right l = [] /\ o = None)
          \/ exists s, s ∈ right /\ same_key l s /\ o = Some (SalesGrouped.UNITS_SOLD s)).
Proof.
  unfold merge_left. rewrite list_elem_of_bind. split.
  - intros (l' & Hin & Hl'). destruct (matches right l') as [|s ms] eqn:Hm.
    + apply list_elem_of_singleton in Hin as [= -> ->]. split; [done|]. by left.
    + apply list_elem_of_fmap in Hin as (s' & [= -> ->] & Hs'). split; [done|].
      right. exists s'. rewrite <- Hm in Hs'. unfold matches in Hs'.
      apply list_elem_of_filter in Hs' as [? ?]. done.
  - intros (Hl & [[Hm ->]|(s & Hs & Hk & ->)]); exists l; (split; [|done]).
    + rewrite Hm. by left.
    + assert (Hin : s ∈ matches right l) by (apply list_elem_of_filter; done).
      destruct (matches right l) as [|s0 ms]; [by apply elem_of_nil in Hin|].
      by apply (list_elem_of_fmap_2 (fun s => (l, Some (SalesGrouped.UNITS_SOLD s)))).
Qed.

(** A missing UNITS_SOLD is filled with 0. *)
Lemma fill_units_missing (has_nan : bool) : fill_units has_nan None = 0.
Proof. by destruct has_nan. Qed.

Lemma merge_left_once (left : list InventoryRenamed.row) (right : list SalesGrouped.row) :
  (forall l, l ∈ left -> (length (matches right l) <= 1)%nat) ->
  (merge_left left right).*1 = left.
Proof.
  unfold merge_left. induction left as [|l left IH]; intros Hone; [done|].
  rewrite bind_cons, fmap_app, IH by (intros l' Hl'; apply Hone; by right).
  assert (Hl : (length (matches right l) <= 1)%nat) by (apply Hone; by left).
  destruct (matches right l) as [|s [|s' ms]]; simpl in *; [done|done|lia].
Qed.

Lemma filter_unique_key {A K : Type} `{EqDecision K} (f : A -> K) (v : K) (l : list A) :
  NoDup (f <$> l) -> (length (filter (fun a => f a = v) l) <= 1)%nat.
Proof.
  induction l as [|a l IH]; [simpl; lia|].
  rewrite fmap_cons, NoDup_cons. intros [Ha Hl]. rewrite filter_cons.
  destruct (decide (f a = v)) as [<-|Hne]; [|by apply IH].
  assert (Hnil : filter (fun b => f b = f a) l = []).
  { destruct (filter (fun b => f b = f a) l) as [|b bs] eqn:Hf; [done|].
    assert (Hb : b ∈ filter (fun b => f b = f a) l) by (rewrite Hf; by left).
    apply list_elem_of_filter in Hb as [Heq Hb]. exfalso. apply Ha.
    rewrite <- Heq. by apply list_elem_of_fmap_2. }
  rewrite Hnil. simpl. lia.
Qed.

Lemma group_keys_NoDup {R K : Type} `{EqDecision K} (leb : K -> K -> bool)
    (key : R -> option K) (df : list R) :
  NoDup (group_keys leb key df).
Proof. apply NoDup_sort_by, NoDup_drop_duplicates. Qed.

Lemma elem_of_group_keys {R K : Type} `{EqDecision K} (leb : K -> K -> bool)
    (key : R -> option K) (df : list R) (k : K) :
  k ∈ group_keys leb key df <-> exists r, r ∈ df /\ key r = Some k.
Proof.
  unfold group_keys. by rewrite elem_of_sort_by, elem_of_drop_duplicates, list_elem_of_omap.
Qed.

(** The aggregated inventory has one row per (CITY, PRODUCT_NAME,
    ITEM_CODE) of the inventory file. *)
Lemma inventory_renamed_keys (Inventory_df : list Inventory.row) :
  inventory_join_key <$> inventory_renamed (inventory_agg Inventory_df)
  = group_keys key3_leb inventory_key Inventory_df.
Proof.
  unfold inventory_renamed, inventory_agg, groupby.
  rewrite <- !list_fmap_compose.
  rewrite <- (list_fmap_id (group_keys _ _ _)) at 2.
  apply list_fmap_ext. by intros _ [[c d] s] _.
Qed.

Lemma inventory_renamed_keys_NoDup (Inventory_df : list Inventory.row) :
  NoDup (inventory_join_key <$> inventory_renamed (inventory_agg Inventory_df)).
Proof. rewrite inventory_renamed_keys. apply group_keys_NoDup. Qed.

Lemma sales_grouped_keys (filtered : list Sales.row) :
  sales_join_key <$> sales_filtered_grouped_df filtered
  = (fun k : key3 => (str_upper k.1.1, k.1.2, k.2))
    <$> group_keys key3_leb sales_key filtered.
Proof.
  unfold sales_filtered_grouped_df, groupby. rewrite <- !list_fmap_compose. done.
Qed.

Lemma sales_key_city (r : Sales.row) (k : key3) :
  sales_key r = Some k -> Sales.CITY r = Some k.1.1.
Proof.
  unfold sales_key. destruct (Sales.CITY r) as [c|]; [|done].
  destruct (Sales.PRODUCT_NAME r) as [p|]; [|done].
  destruct (Sales.ITEM_CODE r) as [i|]; [|done]. simpl. by intros [= <-].
Qed.

Lemma sales_selected_keys_NoDup (Sales_df : list Sales.row)
    (Inventory_df : list Inventory.row) (x : Z) :
  no_case_variants Sales_df ->
  NoDup (sales_join_key <$> sales_selected Sales_df Inventory_df x).
Proof.
  intros Hcase. unfold sales_selected. rewrite sales_grouped_keys.
  apply NoDup_fmap_2_strong; [|apply group_keys_NoDup].
  intros [[c1 p1] i1] [[c2 p2] i2] H1 H2 [= Hc -> ->]. simpl in Hc.
  apply elem_of_group_keys in H1 as (r1 & Hr1 & Hk1).
  apply elem_of_group_keys in H2 as (r2 & Hr2 & Hk2).
  apply sales_key_city in Hk1, Hk2. simpl in Hk1, Hk2.
  unfold filter_recent in Hr1, Hr2.
  apply list_elem_of_filter in Hr1 as [_ Hr1], Hr2 as [_ Hr2].
  unfold named_sales in Hr1, Hr2.
  apply list_elem_of_fmap in Hr1 as (s1 & -> & Hs1), Hr2 as (s2 & -> & Hs2).
  simpl in Hk1, Hk2. by rewrite (Hcase s1 s2 c1 c2).
Qed.

(** When no two cities of the sales file differ in letter case only, the
    reconciled table is the aggregated inventory, row by row, each row
    extended with its units sold: every aggregated inventory row appears
    exactly once. *)
Lemma merged_df_once_per_inventory_row (Sales_df : list Sales.row)
    (Inventory_df : list Inventory.row) (x : Z) :
  no_case_variants Sales_df ->
  inventory_part <$> merged_df Sales_df Inventory_df x
  = inventory_renamed (inventory_agg Inventory_df).
Proof.
  intros Hcase. unfold merged_df, merged_of.
  rewrite <- list_fmap_compose.
  transitivity ((merge_left (inventory_renamed (inventory_agg Inventory_df))
                   (sales_selected Sales_df Inventory_df x)).*1).
  - apply list_fmap_ext. by intros _ [[c i p po wh] o] _.
  - apply merge_left_once. intros l _. unfold matches.
    rewrite (list_filter_iff _ (fun s => sales_join_key s = inventory_join_key l))
      by (intros s; apply same_key_join_key).
    apply filter_unique_key. by apply sales_selected_keys_NoDup.
Qed.

(** ** C4 and C1: city spellings that differ in letter case *)

(** C4. On a week of sales of one item in which the city is spelled
    "Mumbai" once and "MUMBAI" otherwise, the aggregated sales hold two rows
    for the same (CITY, PRODUCT_NAME, ITEM_CODE): the groups were formed on
    the two spellings, and the upper-casing of line 48 came afterwards.  The
    claim asks for one group holding all 12 units. *)
Example mixed_case_sales_in_two_groups :
  unique_days mixed_case_sales = 7%nat
  /\ sales_selected mixed_case_sales mixed_case_inventory 7
     = [{| SalesGrouped.CITY := "MUMBAI"; SalesGrouped.PRODUCT_NAME := "Widget";
           SalesGrouped.ITEM_CODE := "SKU1"; SalesGrouped.UNITS_SOLD := 7 |};
        {| SalesGrouped.CITY := "MUMBAI"; SalesGrouped.PRODUCT_NAME := "Widget";
           SalesGrouped.ITEM_CODE := "SKU1"; SalesGrouped.UNITS_SOLD := 5 |}].
Proof. split; vm_compute; reflexivity. Qed.

(** C1. On the same input the single aggregated inventory row is joined
    with both sales rows and so stands twice in the reconciled table, once
    with 7 and once with 5 units sold.  The claim asks for every aggregated
    inventory row to appear exactly once. *)
Example mixed_case_inventory_row_twice :
  inventory_renamed (inventory_agg mixed_case_inventory)
  = [{| InventoryRenamed.CITY := "MUMBAI"; InventoryRenamed.ITEM_CODE := "SKU1";
        InventoryRenamed.PRODUCT_NAME := "Widget";
        InventoryRenamed.OPEN_PO_QUANTITY := 10;
        InventoryRenamed.WAREHOUSE_QTY := 100 |}]
  /\ merged_df mixed_case_sales mixed_case_inventory 7
     = [{| Merged.CITY := "MUMBAI"; Merged.ITEM_CODE := "SKU1";
           Merged.PRODUCT_NAME := "Widget"; Merged.OPEN_PO_QUANTITY := 10;
           Merged.WAREHOUSE_QTY := 100; Merged.UNITS_SOLD := 7;
           Merged.DAILY_SALES := Float64.of_int 1;
           Merged.DOI := Float64.of_int 100 |};
        {| Merged.CITY := "MUMBAI"; Merged.ITEM_CODE := "SKU1";
           Merged.PRODUCT_NAME := "Widget"; Merged.OPEN_PO_QUANTITY := 10;
           Merged.WAREHOUSE_QTY := 100; Merged.UNITS_SOLD := 5;
           Merged.DAILY_SALES := Float64.div (Float64.of_int 5) (Float64.of_int 7);
           Merged.DOI := Float64.of_int 140 |}].
Proof. split; vm_compute; reflexivity. Qed.

(** ** C8: the exclusion filter *)

Lemma N_of_ascii_inj (a b : ascii) : N_of_ascii a = N_of_ascii b -> a = b.
Proof. intros H. by rewrite <- (ascii_N_embedding a), <- (ascii_N_embedding b), H. Qed.

Lemma N_of_ascii_lower (c : ascii) :
  N_of_ascii (ascii_lower c)
  = if ((65 <=? N_of_ascii c) && (N_of_ascii c <=? 90))%N
    then (N_of_ascii c + 32)%N else N_of_ascii c.
Proof.
  unfold ascii_lower.
  destruct ((65 <=? N_of_ascii c) && (N_of_ascii c <=? 90))%N eqn:H; [|done].
  apply N_ascii_embedding. apply andb_true_iff in H as [_ H]. apply N.leb_le in H. lia.
Qed.

(** The comparison of the matcher agrees with the two cases of a letter. *)
Lemma ascii_lower_eq (a b : ascii) :
  Ascii.eqb (ascii_lower a) (ascii_lower b) = true <-> same_ascii a b.
Proof.
  rewrite Ascii.eqb_eq. unfold same_ascii, case_pair. split.
  - intros H. apply (f_equal N_of_ascii) in H. rewrite !N_of_ascii_lower in H.
    destruct (N.leb_spec 65 (N_of_ascii a)), (N.leb_spec (N_of_ascii a) 90),
      (N.leb_spec 65 (N_of_ascii b)), (N.leb_spec (N_of_ascii b) 90); simpl in H;
      first [left; apply N_of_ascii_inj; lia | right; lia].
  - intros [->|H]; [done|]. apply N_of_ascii_inj. rewrite !N_of_ascii_lower.
    destruct (N.leb_spec 65 (N_of_ascii a)), (N.leb_spec (N_of_ascii a) 90),
      (N.leb_spec 65 (N_of_ascii b)), (N.leb_spec (N_of_ascii b) 90); simpl; lia.
Qed.

Lemma same_ascii_lower (p l : ascii) :
  ascii_lower l = l -> Ascii.eqb (ascii_lower p) l = true <-> same_ascii p l.
Proof. intros Hl. by rewrite <- ascii_lower_eq, Hl. Qed.

Lemma strip_prefix_spec (pre s rest : string) :
  strip_prefix pre s = Some rest <-> s = String.append pre rest.
Proof.
  revert s. induction pre as [|a pre IH]; intros s; simpl.
  - split; [by intros [= ->]|by intros ->].
  - destruct s as [|c s]; [done|]. destruct (Ascii.eqb_spec a c) as [->|Hne].
    + rewrite IH. split; [by intros ->|by intros [= ->]].
    + split; [done|]. intros [= <- _]. by destruct Hne.
Qed.

Lemma further_letters_spec (p : ascii) (sp : string) :
  sp ∈ further_letters p
  <-> (same_ascii p "i"
       /\ (sp = String "196" (String "176" EmptyString)
           \/ sp = String "196" (String "177" EmptyString)))
      \/ (same_ascii p "k" /\ sp = String "226" (String "132" (String "170" EmptyString)))
      \/ (same_ascii p "s" /\ sp = String "197" (String "191" EmptyString)).
Proof.
  rewrite <- !(same_ascii_lower p) by done. unfold further_letters. cbv zeta.
  destruct (Ascii.eqb_spec (ascii_lower p) "i") as [Hi|Hi].
  { rewrite Hi, !elem_of_cons, elem_of_nil. simpl. intuition congruence. }
  destruct (Ascii.eqb_spec (ascii_lower p) "k") as [Hk|Hk].
  { rewrite Hk, !elem_of_cons, elem_of_nil. simpl. intuition congruence. }
  destruct (Ascii.eqb_spec (ascii_lower p) "s") as [Hs|Hs].
  { rewrite !elem_of_cons, elem_of_nil. intuition congruence. }
  rewrite elem_of_nil. intuition congruence.
Qed.

Lemma match_char_spec (p : ascii) (s rest : string) :
  rest ∈ match_char p s <-> exists sp, same_letter p sp /\ s = String.append sp rest.
Proof.
  unfold match_char. rewrite elem_of_app, list_elem_of_omap.
  setoid_rewrite further_letters_spec. setoid_rewrite strip_prefix_spec. split.
  - intros [Hin|(sp & Hsp & ->)].
    + destruct s as [|c s]; [by apply elem_of_nil in Hin|].
      destruct (Ascii.eqb (ascii_lower p) (ascii_lower c)) eqn:Heq;
        [|by apply elem_of_nil in Hin].
      apply list_elem_of_singleton in Hin as ->. apply ascii_lower_eq in Heq.
      exists (String c EmptyString). split; [by constructor|done].
    + exists sp. split; [|done].
      destruct Hsp as [[Hp [-> | ->]] | [[Hp ->] | [Hp ->]]]; by constructor.
  - intros (sp & Hsp & ->). destruct Hsp as [c Hc|Hp|Hp|Hp|Hp].
    + left. simpl. apply ascii_lower_eq in Hc. rewrite Hc. by left.
    + right. eexists. split; [|reflexivity]. tauto.
    + right. eexists. split; [|reflexivity]. tauto.
    + right. eexists. split; [|reflexivity]. tauto.
    + right. eexists. split; [|reflexivity]. tauto.
Qed.

Lemma append_assoc (a b c : string) :
  String.append (String.append a b) c = String.append a (String.append b c).
Proof.
  induction a as [|x a IH]; [done|].
  change (String x (String.append (String.append a b) c)
          = String x (String.append a (String.append b c))).
  by rewrite IH.
Qed.

(** The matcher finds the term at the start of the text exactly when a
    prefix of the text spells it. *)
Lemma match_here_spec (pat s : string) :
  match_here pat s = true
  <-> exists mid suf, s = String.append mid suf /\ spelled pat mid.
Proof.
  revert s. induction pat as [|p pat IH]; intros s; simpl.
  - split; [intros _; exists EmptyString, s; split; [done|constructor]|done].
  - rewrite existsb_exists. setoid_rewrite <- list_elem_of_In.
    setoid_rewrite match_char_spec. setoid_rewrite IH. split.
    + intros (rest & (sp & Hsp & ->) & mid & suf & -> & Hmid).
      exists (String.append sp mid), suf. split; [by rewrite append_assoc|by constructor].
    + intros (mid & suf & -> & Hmid). inversion Hmid as [|? ? sp text Hsp Htext]; subst.
      exists (String.append text suf). split.
      * exists sp. split; [done|by rewrite append_assoc].
      * by exists text, suf.
Qed.

Lemma re_search_spec (alts : list string) (s : string) :
  re_search alts s = true
  <-> exists term, term ∈ alts /\ contains_ignoring_case term s.
Proof.
  unfold contains_ignoring_case.
  induction s as [|c s IH]; simpl;
    rewrite orb_true_iff, existsb_exists;
    setoid_rewrite <- list_elem_of_In; setoid_rewrite match_here_spec.
  - split.
    + intros [(term & Hin & mid & suf & Hs & Hmid)|?]; [|done].
      exists term. split; [done|]. by exists EmptyString, mid, suf.
    + intros (term & Hin & pre & mid & suf & Hs & Hmid). left. exists term.
      split; [done|]. destruct pre; [|discriminate]. by exists mid, suf.
  - rewrite IH. split.
    + intros [(term & Hin & mid & suf & Hs & Hmid)|(term & Hin & pre & mid & suf & Hs & Hmid)];
        exists term; (split; [done|]).
      * by exists EmptyString, mid, suf.
      * exists (String c pre), mid, suf. simpl. by rewrite Hs.
    + intros (term & Hin & pre & mid & suf & Hs & Hmid). destruct pre as [|a pre].
      * left. exists term. split; [done|]. by exists mid, suf.
      * right. exists term. split; [done|]. simpl in Hs.
        injection Hs as _ Hs. by exists pre, mid, suf.
Qed.

Lemma name_excluded_spec (cell : option string) :
  name_excluded cell = true
  <-> exists s term, cell = Some s /\ term ∈ ["gift"; "celebration"; "sample"]
                     /\ contains_ignoring_case term s.
Proof.
  unfold name_excluded, str_contains. destruct cell as [s|].
  - rewrite re_search_spec. split.
    + intros (term & Hin & Hc). by exists s, term.
    + intros (s' & term & [= <-] & Hin & Hc). by exists term.
  - split; [done|]. by intros (s & term & ? & _).
Qed.

(** C8. A row of a frame is removed by the exclusion filter if and only if
    its product name is present and contains, letter case ignored, one of
    "gift", "celebration" or "sample" as a substring; a row whose product
    name is missing is kept.  Containment is stated on the text itself,
    character by character ([spelled]), and not through the matcher. *)
Theorem exclusion_filter_removes {R : Type} (name : R -> option string)
    (df : list R) (r : R) :
  r ∈ df ->
  (r ∉ exclusion_filter name df
   <-> exists s term, name r = Some s /\ term ∈ ["gift"; "celebration"; "sample"]
                      /\ contains_ignoring_case term s)
  /\ (name r = None -> r ∈ exclusion_filter name df).
Proof.
  intros Hr. unfold exclusion_filter. rewrite <- name_excluded_spec. split.
  - rewrite list_elem_of_filter. destruct (name_excluded (name r)); split; intros H.
    + done.
    + intros [? _]. done.
    + exfalso. apply H. done.
    + done.
  - intros Hnone. rewrite list_elem_of_filter, Hnone. done.
Qed.

Lemma exclusion_filter_removes_witness :
  Some "Big GIFT box" ∈ [Some "Big GIFT box"; None; Some "Widget"]
  /\ contains_ignoring_case "gift" "Big GIFT box"
  /\ (Some "Big GIFT box" ∉ exclusion_filter id [Some "Big GIFT box"; None; Some "Widget"])
  /\ None ∈ exclusion_filter id [Some "Big GIFT box"; None; Some "Widget"].
Proof.
  assert (Hpair : forall a b : ascii,
            N.eqb (N_of_ascii a + 32) (N_of_ascii b)
            && N.leb 65 (N_of_ascii b - 32) && N.leb (N_of_ascii b - 32) 90 = true ->
            same_ascii b a).
  { intros a b H. apply andb_true_iff in H as [H H3]. apply andb_true_iff in H as [H1 H2].
    apply N.eqb_eq in H1. apply N.leb_le in H2, H3. right. right. lia. }
  assert (Hgift : contains_ignoring_case "gift" "Big GIFT box").
  { exists "Big ", "GIFT", " box". split; [reflexivity|].
    apply (spelled_cons "g" "ift" "G" "IFT"); [constructor; by apply Hpair|].
    apply (spelled_cons "i" "ft" "I" "FT"); [constructor; by apply Hpair|].
    apply (spelled_cons "f" "t" "F" "T"); [constructor; by apply Hpair|].
    apply (spelled_cons "t" "" "T" ""); [constructor; by apply Hpair|constructor]. }
  destruct (exclusion_filter_removes id [Some "Big GIFT box"; None; Some "Widget"]
              (Some "Big GIFT box") (list_elem_of_here _ _)) as [Hiff _].
  destruct (exclusion_filter_removes id [Some "Big GIFT box"; None; Some "Widget"]
              None (list_elem_of_further _ _ _ (list_elem_of_here _ _))) as [_ Hnone].
  split; [apply list_elem_of_here|]. split; [exact Hgift|]. split.
  - apply Hiff. exists "Big GIFT box", "gift". split; [reflexivity|].
    split; [apply list_elem_of_here|exact Hgift].
  - by apply Hnone.
Defined.

(** The matching is the one of Python's [re] with [re.IGNORECASE]: beside
    the two cases of an ASCII letter it takes the long s (U+017F) for an s
    and the dotless i (U+0131) for an i, so that these two names are
    excluded as well. *)
Example long_s_and_dotless_i_excluded :
  (name_excluded (Some (String "197" (String "191" "ample kit"))) = true)
  /\ (name_excluded (Some (String.append "G" (String "196" (String "177" "ft box"))))
      = true)
  /\ name_excluded (Some "Kit") = false.
Proof. repeat split; vm_compute; reflexivity. Qed.

(** On the reconciled table, whose product names are never missing. *)
Lemma merged_kept_spec (merged : list Merged.row) (r : Merged.row) :
  r ∈ merged_kept merged
  <-> r ∈ merged
      /\ ~ exists term, term ∈ ["gift"; "celebration"; "sample"]
                        /\ contains_ignoring_case term (Merged.PRODUCT_NAME r).
Proof.
  unfold merged_kept, exclusion_filter. rewrite list_elem_of_filter.
  rewrite (comm and). apply and_iff_compat_l.
  rewrite <- not_true_iff_false, name_excluded_spec. split.
  - intros H (term & Hin & Hc). apply H. by exists (Merged.PRODUCT_NAME r), term.
  - intros H (s & term & [= <-] & Hin & Hc). apply H. by exists term.
Qed.

(** The filter changes nothing when it is applied a second time. *)
Lemma exclusion_filter_idempotent {R : Type} (name : R -> option string) (df : list R) :
  exclusion_filter name (exclusion_filter name df) = exclusion_filter name df.
Proof. unfold exclusion_filter. rewrite list_filter_filter. apply list_filter_iff. tauto. Qed.

(** ** Rows of the reconciled and of the final table *)

Lemma merged_df_row (Sales_df : list Sales.row) (Inventory_df : list Inventory.row)
    (x : Z) (r : Merged.row) :
  r ∈ merged_df Sales_df Inventory_df x ->
  exists has_nan j, r = merged_row x has_nan j.
Proof.
  unfold merged_df, merged_of. rewrite list_elem_of_fmap.
  intros (j & -> & _). by eexists _, j.
Qed.

Lemma final_of_row (merged : list Merged.row) (r : Final.row) :
  r ∈ final_of merged <-> exists m, r = project_final m /\ m ∈ merged_kept merged.
Proof.
  unfold final_of, sort_values. by rewrite elem_of_sort_by, list_elem_of_fmap.
Qed.

Lemma eqb_zero_not_positive (d : Float64.t) :
  Float64.eqb d Float64.zero = true -> Float64.ltb Float64.zero d = false.
Proof. by destruct d as [[]|[]| |[] m e]. Qed.

(** ** C2: the zero guard of the DOI *)

(** C2. For every row of the reconciled table, DAILY_SALES is UNITS_SOLD / x
    and DOI is round(WAREHOUSE_QTY / DAILY_SALES, 2) when DAILY_SALES > 0;
    when DAILY_SALES is 0, and whenever DAILY_SALES > 0 fails, DOI is
    exactly 0, which is neither NaN nor an infinity. *)
Theorem doi_zero_guard (Sales_df : list Sales.row) (Inventory_df : list Inventory.row)
    (x : Z) (r : Merged.row) :
  r ∈ merged_df Sales_df Inventory_df x ->
  Merged.DAILY_SALES r = daily_sales (Merged.UNITS_SOLD r) x
  /\ (Float64.ltb Float64.zero (Merged.DAILY_SALES r) = true ->
      Merged.DOI r
      = Float64.round2
          (Float64.div (Float64.of_int (Merged.WAREHOUSE_QTY r)) (Merged.DAILY_SALES r)))
  /\ (Float64.eqb (Merged.DAILY_SALES r) Float64.zero = true ->
      Merged.DOI r = Float64.zero)
  /\ (Float64.ltb Float64.zero (Merged.DAILY_SALES r) = false ->
      Merged.DOI r = Float64.zero
      /\ Float64.is_nan (Merged.DOI r) = false
      /\ Float64.is_inf (Merged.DOI r) = false).
Proof.
  intros Hr. destruct (merged_df_row _ _ _ _ Hr) as (has_nan & j & ->).
  simpl. unfold doi_lambda. split; [done|].
  split; [by intros ->|]. split.
  - intros Hz. by rewrite (eqb_zero_not_positive _ Hz).
  - by intros ->.
Qed.

Lemma doi_zero_guard_witness :
  let r := merged_row 7 true
             ({| InventoryRenamed.CITY := "MUMBAI"; InventoryRenamed.ITEM_CODE := "SKU2";
                 InventoryRenamed.PRODUCT_NAME := "Gift Box";
                 InventoryRenamed.OPEN_PO_QUANTITY := 1;
                 InventoryRenamed.WAREHOUSE_QTY := 5 |}, None) in
  r ∈ merged_df sample_sales sample_inventory 7
  /\ Float64.eqb (Merged.DAILY_SALES r) Float64.zero = true
  /\ Merged.DOI r = Float64.zero.
Proof.
  assert (Hin : merged_row 7 true
             ({| InventoryRenamed.CITY := "MUMBAI"; InventoryRenamed.ITEM_CODE := "SKU2";
                 InventoryRenamed.PRODUCT_NAME := "Gift Box";
                 InventoryRenamed.OPEN_PO_QUANTITY := 1;
                 InventoryRenamed.WAREHOUSE_QTY := 5 |}, None)
           ∈ merged_df sample_sales sample_inventory 7).
  { apply list_elem_of_lookup. exists 1%nat. vm_compute. reflexivity. }
  assert (Hzero : Float64.eqb (daily_sales (fill_units true None) 7) Float64.zero = true)
    by (vm_compute; reflexivity).
  split; [exact Hin|]. split; [exact Hzero|].
  exact (proj1 (proj2 (proj2 (doi_zero_guard sample_sales sample_inventory 7 _ Hin))) Hzero).
Defined.

(** Without units sold the DOI is 0, whatever the window size. *)
Lemma doi_lambda_no_units (w x : Z) :
  doi_lambda w (daily_sales 0 x) = Float64.zero.
Proof.
  unfold doi_lambda, daily_sales, Float64.div. simpl.
  by destruct (Float64.of_int x) as [[]|[]| |[] m e].
Qed.

(** ** C3: round to two decimals, then floor *)

Lemma final_df_row (Sales_df : list Sales.row) (Inventory_df : list Inventory.row)
    (x : Z) (r : Final.row) :
  r ∈ final_df Sales_df Inventory_df x ->
  Final.DOI r
  = Float64.floor
      (doi_lambda (Final.WAREHOUSE_QTY r) (daily_sales (Final.UNITS_SOLD r) x)).
Proof.
  unfold final_df. rewrite final_of_row. intros (m & -> & Hm).
  apply merged_kept_spec in Hm as [Hm _].
  by destruct (merged_df_row _ _ _ _ Hm) as (has_nan & j & ->).
Qed.

Lemma div_half_even_nearest (n d : Z) :
  0 < d ->
  2 * Z.abs (n - Float64.div_half_even n d * d) <= d
  /\ (2 * Z.abs (n - Float64.div_half_even n d * d) = d ->
      Z.even (Float64.div_half_even n d) = true).
Proof.
  intros Hd. unfold Float64.div_half_even.
  assert (Hdiv := Z.div_mod n d ltac:(lia)).
  assert (Hmod := Z.mod_pos_bound n d Hd).
  set (q := n / d) in *. set (r := n mod d) in *.
  destruct (Z.compare_spec (2 * r) d) as [Heq|Hlt|Hgt].
  - destruct (Z.even q) eqn:Heven.
    + split; [lia|done].
    + split; [lia|]. intros _. rewrite Z.even_add, Heven. done.
  - split; lia.
  - split; lia.
Qed.

Lemma hundredths_nearest (m : positive) (e : Z) :
  nearest_hundredth m e (Float64.hundredths m e).
Proof.
  unfold nearest_hundredth, Float64.hundredths.
  destruct (0 <=? e) eqn:He; [done|].
  apply div_half_even_nearest. apply Z.leb_gt in He. apply Z.pow_pos_nonneg; lia.
Qed.

Lemma nearest_hundredth_unique (m : positive) (e k1 k2 : Z) :
  nearest_hundredth m e k1 -> nearest_hundredth m e k2 -> k1 = k2.
Proof.
  unfold nearest_hundredth. destruct (0 <=? e) eqn:He; [congruence|].
  assert (Hd : 0 < 2 ^ (- e)) by (apply Z.leb_gt in He; apply Z.pow_pos_nonneg; lia).
  set (d := 2 ^ (- e)) in *. set (n := 100 * Z.pos m).
  intros [H1 T1] [H2 T2].
  destruct (Z.lt_trichotomy k1 k2) as [Hlt|[Heq|Hgt]]; [|done|]; exfalso.
  - assert (Hk : k2 = k1 + 1) by nia. subst k2.
    assert (E1 : 2 * Z.abs (n - k1 * d) = d) by nia.
    assert (E2 : 2 * Z.abs (n - (k1 + 1) * d) = d) by nia.
    specialize (T1 E1). specialize (T2 E2). rewrite Z.even_add, T1 in T2. done.
  - assert (Hk : k1 = k2 + 1) by nia. subst k1.
    assert (E1 : 2 * Z.abs (n - k2 * d) = d) by nia.
    assert (E2 : 2 * Z.abs (n - (k2 + 1) * d) = d) by nia.
    specialize (T1 E2). specialize (T2 E1). rewrite Z.even_add, T2 in T1. done.
Qed.

(** Rounding to two decimals determines its result. *)
Lemma rounded_to_two_decimals_unique (v w1 w2 : Float64.t) :
  rounded_to_two_decimals v w1 -> rounded_to_two_decimals v w2 -> w1 = w2.
Proof.
  destruct v as [s|s| |s m e]; simpl; try congruence.
  intros (k1 & Hk1 & ->) (k2 & Hk2 & ->).
  by rewrite (nearest_hundredth_unique _ _ _ _ Hk1 Hk2).
Qed.

(** The rounding of the script's lambda is the rounding to two decimals. *)
Lemma round2_rounded (v : Float64.t) :
  rounded_to_two_decimals v (Float64.round2 v).
Proof.
  destruct v as [s|s| |s m e]; try done. simpl.
  exists (Float64.hundredths m e). split; [apply hundredths_nearest|done].
Qed.

(** C3. For every row of the final table, with DAILY_SALES = UNITS_SOLD / x:
    when DAILY_SALES > 0 the displayed DOI is the floor of the rounded
    ratio, where the rounded ratio is WAREHOUSE_QTY / DAILY_SALES rounded to
    two decimals (the quotient by 100 of the nearest number of hundredths),
    the rounding applied first; otherwise it is the floor of the guard's 0,
    which is 0. *)
Theorem final_doi_round_then_floor (Sales_df : list Sales.row)
    (Inventory_df : list Inventory.row) (x : Z) (r : Final.row) :
  r ∈ final_df Sales_df Inventory_df x ->
  let d := daily_sales (Final.UNITS_SOLD r) x in
  let ratio := Float64.div (Float64.of_int (Final.WAREHOUSE_QTY r)) d in
  (Float64.ltb Float64.zero d = true ->
   (exists rounded, rounded_to_two_decimals ratio rounded)
   /\ (forall rounded,
         rounded_to_two_decimals ratio rounded ->
         rounded = Float64.round2 ratio /\ Final.DOI r = Float64.floor rounded))
  /\ (Float64.ltb Float64.zero d = false -> Final.DOI r = Float64.zero).
Proof.
  intros Hr d ratio. rewrite (final_df_row _ _ _ _ Hr). unfold doi_lambda. fold d.
  split.
  - intros ->. split; [exists (Float64.round2 ratio); apply round2_rounded|].
    intros rounded Hrounded.
    by rewrite (rounded_to_two_decimals_unique _ _ _ Hrounded (round2_rounded ratio)).
  - by intros ->.
Qed.

(** The witness is a row on which the order of the two steps shows: 9996
    units in stock against 1000 sold a day is a ratio of 9.996, which rounds
    to 10.0 and is shown as 10, while the floor of the ratio itself is 9. *)
Lemma final_doi_round_then_floor_witness :
  let r := {| Final.CITY := "PUNE"; Final.ITEM_CODE := "SKU1";
              Final.PRODUCT_NAME := "Widget"; Final.UNITS_SOLD := 7000;
              Final.WAREHOUSE_QTY := 9996; Final.OPEN_PO_QUANTITY := 0;
              Final.DOI := Float64.of_int 10 |} in
  let ratio := Float64.div (Float64.of_int 9996) (daily_sales 7000 7) in
  r ∈ final_df (week_of_sales "PUNE" "SKU1" 1000) [stock "PUNE" "Widget" "SKU1" 0 9996] 7
  /\ Float64.ltb Float64.zero (daily_sales 7000 7) = true
  /\ rounded_to_two_decimals ratio (Float64.of_int 10)
  /\ Final.DOI r = Float64.floor (Float64.of_int 10)
  /\ Final.DOI r = Float64.of_int 10
  /\ Float64.floor ratio = Float64.of_int 9.
Proof.
  assert (Hin : {| Final.CITY := "PUNE"; Final.ITEM_CODE := "SKU1";
              Final.PRODUCT_NAME := "Widget"; Final.UNITS_SOLD := 7000;
              Final.WAREHOUSE_QTY := 9996; Final.OPEN_PO_QUANTITY := 0;
              Final.DOI := Float64.of_int 10 |}
           ∈ final_df (week_of_sales "PUNE" "SKU1" 1000)
               [stock "PUNE" "Widget" "SKU1" 0 9996] 7).
  { apply list_elem_of_lookup. exists 0%nat. vm_compute. reflexivity. }
  assert (Hpos : Float64.ltb Float64.zero (daily_sales 7000 7) = true)
    by (vm_compute; reflexivity).
  assert (Hten : rounded_to_two_decimals
                   (Float64.div (Float64.of_int 9996) (daily_sales 7000 7))
                   (Float64.of_int 10)).
  { assert (Hratio : Float64.div (Float64.of_int 9996) (daily_sales 7000 7)
                     = S754_finite false 5627247734399435 (-49))
      by (vm_compute; reflexivity).
    rewrite Hratio. exists 1000. split; [|vm_compute; reflexivity].
    split; [vm_compute; discriminate|vm_compute; discriminate]. }
  split; [exact Hin|]. split; [exact Hpos|]. split; [exact Hten|]. split.
  - exact (proj2 (proj2 (proj1 (final_doi_round_then_floor _ _ 7 _ Hin) Hpos) _ Hten)).
  - split; [reflexivity|vm_compute; reflexivity].
Defined.

(** Rounding first can move the floor: 9996 units in stock against 1000
    sold a day is a ratio of 9.996, shown as 10, while the floor of the
    ratio itself is 9. *)
Example round_then_floor_differs :
  final_df (week_of_sales "PUNE" "SKU1" 1000) [stock "PUNE" "Widget" "SKU1" 0 9996] 7
  = [{| Final.CITY := "PUNE"; Final.ITEM_CODE := "SKU1"; Final.PRODUCT_NAME := "Widget";
        Final.UNITS_SOLD := 7000; Final.WAREHOUSE_QTY := 9996;
        Final.OPEN_PO_QUANTITY := 0; Final.DOI := Float64.of_int 10 |}]
  /\ Float64.floor (Float64.div (Float64.of_int 9996) (daily_sales 7000 7))
     = Float64.of_int 9.
Proof. split; vm_compute; reflexivity. Qed.

(** The rounding is the one of the float, not of the decimal fraction: 9.995
    is stored as a float slightly below, is rounded to 9.99 and shown as 9. *)
Example round2_of_stored_float :
  Float64.round2 (Float64.div (Float64.of_int 9995) (Float64.of_int 1000))
  = Float64.div (Float64.of_int 999) (Float64.of_int 100)
  /\ Float64.floor (Float64.round2 (Float64.div (Float64.of_int 9995) (Float64.of_int 1000)))
     = Float64.of_int 9.
Proof. split; vm_compute; reflexivity. Qed.

(** ** C10: the order of the final table *)

Lemma StronglySorted_weaken {A : Type} (R1 R2 : A -> A -> Prop) (l : list A) :
  (forall a b, R1 a b -> R2 a b) -> StronglySorted R1 l -> StronglySorted R2 l.
Proof.
  intros HR. induction 1 as [|a l Hl IH Ha]; constructor; [done|].
  eapply Forall_impl; [exact Ha|]. apply HR.
Qed.

(** C10. The final table is sorted by CITY ascending and, among the rows of
    one city, by DOI descending: every row stands in this order to every
    row after it. *)
Theorem final_df_sorted (Sales_df : list Sales.row) (Inventory_df : list Inventory.row)
    (x : Z) :
  StronglySorted city_then_doi_desc (final_df Sales_df Inventory_df x).
Proof.
  unfold final_df, final_of, sort_values.
  eapply StronglySorted_weaken; [|apply sort_by_sorted].
  - intros r1 r2. apply final_leb_spec.
  - apply final_leb_total.
  - apply final_leb_trans.
Qed.

(** The sort only reorders the rows. *)
Lemma sort_values_perm (df : list Final.row) : sort_values df ≡ₚ df.
Proof. apply sort_by_perm. Qed.

(** ** C9: a missing column *)

Lemma missing_from_nil (cols names : list string) :
  missing_from cols names = [] -> forall n, n ∈ names -> n ∈ cols.
Proof.
  unfold missing_from. intros Hnil n Hn.
  destruct (decide (n ∈ cols)) as [|Hout]; [done|].
  assert (Hin : n ∈ filter (fun n => n ∉ cols) names)
    by (apply list_elem_of_filter; by split).
  rewrite Hnil in Hin. by apply not_elem_of_nil in Hin.
Qed.

Lemma elem_of_missing_from (cols names : list string) (n : string) :
  n ∈ missing_from cols names <-> (n ∉ cols) /\ n ∈ names.
Proof. unfold missing_from. by rewrite list_elem_of_filter. Qed.

Lemma lookup_columns_cases (cols names : list string) :
  (lookup_columns cols names = inr tt /\ forall n, n ∈ names -> n ∈ cols)
  \/ (exists n, lookup_columns cols names = inl (KeyError [n])
                /\ n ∈ names /\ n ∉ cols).
Proof.
  unfold lookup_columns. destruct (missing_from cols names) as [|n ms] eqn:Hm.
  - left. split; [done|]. by apply missing_from_nil.
  - right. exists n. split; [done|].
    assert (Hn : n ∈ missing_from cols names) by (rewrite Hm; by left).
    apply elem_of_missing_from in Hn. tauto.
Qed.

Lemma select_columns_cases (cols names : list string) :
  (select_columns cols names = inr tt /\ forall n, n ∈ names -> n ∈ cols)
  \/ (exists ms, select_columns cols names = inl (KeyError ms) /\ ms <> []
                 /\ forall n, n ∈ ms -> n ∈ names /\ n ∉ cols).
Proof.
  unfold select_columns. destruct (missing_from cols names) as [|n ms] eqn:Hm.
  - left. split; [done|]. by apply missing_from_nil.
  - right. exists (n :: ms). split; [done|]. split; [done|].
    intros k Hk. rewrite <- Hm in Hk. apply elem_of_missing_from in Hk. tauto.
Qed.


Lemma lookup_columns_inr (cols names : list string) :
  (forall n, n ∈ names -> n ∈ cols) -> lookup_columns cols names = inr tt.
Proof.
  intros Hall. destruct (lookup_columns_cases cols names) as [[? _]|(n & _ & Hn & Hout)];
    [done|]. by destruct Hout; apply Hall.
Qed.

Lemma select_columns_inr (cols names : list string) :
  (forall n, n ∈ names -> n ∈ cols) -> select_columns cols names = inr tt.
Proof.
  intros Hall. destruct (select_columns_cases cols names) as [[? _]|(ms & _ & Hne & Hms)];
    [done|]. destruct ms as [|m ms]; [done|].
  destruct (Hms m) as [Hin Hout]; [by left|]. by destruct Hout; apply Hall.
Qed.







(** With every required column present and at least 7 distinct dates the
    run reaches line 47 and yields the grouped sales. *)
Lemma run_ok (Sales_df : Csv Sales.row) (Inventory_df : Csv Inventory.row) (x : Z) :
  (forall c, c ∈ required_inventory_columns -> c ∈ columns Inventory_df) ->
  (forall c, c ∈ required_sales_columns -> c ∈ columns Sales_df) ->
  (7 <= unique_days (rows Sales_df))%nat ->
  run_aggregation Sales_df Inventory_df x
  = inr (sales_grouped_as_spelled
           (filter_recent (named_sales (rows Sales_df) (rows Inventory_df)) x)).
Proof.
  intros HI HS Hdays. unfold run_aggregation, number_input.
  unfold required_inventory_columns in HI. unfold required_sales_columns in HS.
  rewrite (lookup_columns_inr (columns Inventory_df))
    by (intros n Hn; apply HI; rewrite !elem_of_cons in Hn; rewrite !elem_of_cons; tauto).
  rewrite select_columns_inr
    by (intros n Hn; apply HI; rewrite !elem_of_cons in Hn; rewrite !elem_of_cons; tauto).
  rewrite (lookup_columns_inr (columns Sales_df) ["ITEM_CODE"])
    by (intros n Hn; apply HS; rewrite !elem_of_cons in Hn; rewrite !elem_of_cons; tauto).
  rewrite (lookup_columns_inr (columns Sales_df) ["ORDERED_DATE"])
    by (intros n Hn; apply HS; rewrite !elem_of_cons in Hn; rewrite !elem_of_cons; tauto).
  destruct (Z.ltb_spec (Z.of_nat (unique_days (rows Sales_df))) 7) as [?|_]; [lia|].
  rewrite (lookup_columns_inr ("PRODUCT_NAME" :: columns Sales_df)
             ["CITY"; "PRODUCT_NAME"; "ITEM_CODE"]).
  2:{ intros n Hn. rewrite !elem_of_cons in Hn. rewrite elem_of_cons.
      destruct Hn as [->|[->|[->|Hn]]]; [right|by left|right|by apply elem_of_nil in Hn];
        apply HS; rewrite !elem_of_cons; tauto. }
  rewrite (lookup_columns_inr ("PRODUCT_NAME" :: columns Sales_df) ["UNITS_SOLD"]).
  2:{ intros n Hn. apply list_elem_of_singleton in Hn as ->. right.
      apply HS. rewrite !elem_of_cons. tauto. }
  done.
Qed.

(** ** The custom view *)

Lemma explicit_spec (raw : list string) :
  explicit raw = true <-> raw <> [] /\ "All" ∉ raw.
Proof.
  unfold explicit. rewrite andb_true_iff, !negb_true_iff, !bool_decide_eq_false. tauto.
Qed.

Lemma resolve_explicit (all raw : list string) :
  explicit raw = true -> resolve all raw = raw.
Proof.
  rewrite explicit_spec. intros [Hne Hall]. unfold resolve.
  by rewrite (bool_decide_eq_false_2 _ Hall), (bool_decide_eq_false_2 _ Hne).
Qed.

Lemma resolve_nil (all : list string) : resolve all [] = all.
Proof.
  unfold resolve.
  rewrite (bool_decide_eq_false_2 ("All" ∈ [])) by apply not_elem_of_nil.
  by rewrite bool_decide_eq_true_2.
Qed.

Lemma is_empty_explicit (raw : list string) : explicit raw = true -> is_empty raw = false.
Proof. rewrite explicit_spec. intros [Hne _]. by apply bool_decide_eq_false_2. Qed.

Lemma elem_of_all_cities (final : list Final.row) (c : string) :
  c ∈ all_cities final <-> c ∈ Final.CITY <$> final.
Proof. unfold all_cities. by rewrite elem_of_sort_by, elem_of_drop_duplicates. Qed.

Lemma elem_of_all_products (final : list Final.row) (p : string) :
  p ∈ all_products final <-> p ∈ Final.PRODUCT_NAME <$> final.
Proof. unfold all_products. by rewrite elem_of_sort_by, elem_of_drop_duplicates. Qed.

Lemma recalculate_fixed (x : Z) (r : Final.row) :
  Final.DOI r
  = Float64.floor (doi_lambda (Final.WAREHOUSE_QTY r) (daily_sales (Final.UNITS_SOLD r) x)) ->
  project_final (recalculate x r) = r.
Proof. destruct r; simpl. by intros ->. Qed.

(** ** C5: both selections explicit *)

(** C5. When the city selection and the product selection are both explicit
    (not empty, without "All"), the custom view of the final table is the
    detail table made of the rows of the final table whose city and product
    are selected, each one unchanged: in particular its DOI is the final
    table's DOI of that row.  (The script does recompute DAILY_SALES and DOI
    for these rows, from the same quantities and the same window size, and
    obtains the same values.) *)
Theorem detail_view_keeps_final_rows (Sales_df : list Sales.row)
    (Inventory_df : list Inventory.row) (x : Z) (cities products : list string) :
  explicit cities = true ->
  explicit products = true ->
  custom_doi_view (final_df Sales_df Inventory_df x) x cities products
  = Detail
      (filter (fun r => Final.CITY r ∈ cities /\ Final.PRODUCT_NAME r ∈ products)
         (final_df Sales_df Inventory_df x)).
Proof.
  intros Hc Hp. unfold custom_doi_view.
  rewrite (is_empty_explicit _ Hc), (is_empty_explicit _ Hp). simpl.
  rewrite (resolve_explicit _ _ Hc), (resolve_explicit _ _ Hp).
  unfold filtered_df. f_equal.
  rewrite <- list_fmap_compose.
  rewrite <- (list_fmap_id (filter _ _)) at 2.
  apply Forall_fmap_ext, Forall_forall. intros r Hr.
  apply list_elem_of_filter in Hr as [_ Hr].
  simpl. apply recalculate_fixed. by apply (final_df_row Sales_df Inventory_df).
Qed.

Lemma detail_view_keeps_final_rows_witness :
  explicit ["MUMBAI"] = true
  /\ explicit ["Widget"] = true
  /\ custom_doi_view (final_df sample_sales sample_inventory 7) 7 ["MUMBAI"] ["Widget"]
     = Detail
         (filter (fun r => Final.CITY r ∈ ["MUMBAI"] /\ Final.PRODUCT_NAME r ∈ ["Widget"])
            (final_df sample_sales sample_inventory 7)).
Proof.
  split; [reflexivity|]. split; [reflexivity|].
  apply detail_view_keeps_final_rows; reflexivity.
Defined.

(** ** C6: only cities selected *)

Lemma omap_Some_fmap {A B : Type} (f : A -> B) (l : list A) :
  omap (fun a => Some (f a)) l = f <$> l.
Proof. induction l as [|a l IH]; [done|]. cbn. by f_equal. Qed.

Lemma regroup_labels (col : Merged.row -> string) (x : Z) (df : list Merged.row) :
  Grouped.label <$> regroup col x df
  = sort_by String.leb (drop_duplicates (col <$> df)).
Proof.
  unfold regroup, groupby, group_keys.
  rewrite <- !list_fmap_compose, omap_Some_fmap.
  rewrite <- (list_fmap_id (sort_by _ _)) at 2.
  by apply list_fmap_ext.
Qed.

Lemma regroup_row (col : Merged.row -> string) (x : Z) (df : list Merged.row)
    (g : Grouped.row) :
  g ∈ regroup col x df ->
  let rows := filter (fun r => col r = Grouped.label g) df in
  Grouped.UNITS_SOLD g = Int64.sum (Merged.UNITS_SOLD <$> rows)
  /\ Grouped.WAREHOUSE_QTY g = Int64.sum (Merged.WAREHOUSE_QTY <$> rows)
  /\ Grouped.OPEN_PO_QUANTITY g = Int64.sum (Merged.OPEN_PO_QUANTITY <$> rows)
  /\ Grouped.DAILY_SALES g = daily_sales (Grouped.UNITS_SOLD g) x
  /\ Grouped.DOI g
     = Float64.floor (doi_lambda (Grouped.WAREHOUSE_QTY g) (Grouped.DAILY_SALES g)).
Proof.
  unfold regroup, groupby. rewrite <- list_fmap_compose, list_elem_of_fmap.
  intros (k & -> & _). simpl. unfold group_rows.
  assert (Hrows : filter (fun r => Some (col r) = Some k) df
                  = filter (fun r => col r = k) df).
  { apply list_filter_iff. intros r. split; [by intros [= ->]|by intros ->]. }
  by rewrite Hrows.
Qed.

Lemma recalculate_city_rows (x : Z) (c : string) (l : list Final.row) :
  filter (fun m => Merged.CITY m = c) (recalculate x <$> l)
  = recalculate x <$> filter (fun r => Final.CITY r = c) l.
Proof.
  induction l as [|r l IH]; [done|].
  rewrite fmap_cons, !filter_cons. simpl.
  destruct (decide (Final.CITY r = c)); by rewrite IH.
Qed.

Lemma city_rows_of_selection (final : list Final.row) (cities products : list string)
    (c : string) :
  c ∈ cities ->
  (forall r, r ∈ final -> Final.PRODUCT_NAME r ∈ products) ->
  filter (fun r => Final.CITY r = c) (filtered_df final cities products)
  = filter (fun r => Final.CITY r = c) final.
Proof.
  intros Hc Hp. unfold filtered_df. rewrite list_filter_filter.
  apply filter_ext_elem. intros r Hr. split; [tauto|].
  intros Heq. split; [done|]. split; [by rewrite Heq|by apply Hp].
Qed.

(** C6. When the city selection is explicit (not empty, without "All"), the
    product selection is empty and the selected cities are among the
    options, that is, cities of the final table, the custom view is the
    table grouped by city: it has exactly one row per selected city (in
    ascending order of the city); the row's UNITS_SOLD, WAREHOUSE_QTY and
    OPEN_PO_QUANTITY are the sums over the rows of that city in the final
    table; its DAILY_SALES is the summed UNITS_SOLD / x and its DOI is
    recomputed from the sums, rounded to two decimals and then floored. *)
Theorem city_view_regroups (final : list Final.row) (x : Z) (cities : list string) :
  explicit cities = true ->
  (forall c, c ∈ cities -> c ∈ Final.CITY <$> final) ->
  exists grouped,
    custom_doi_view final x cities [] = ByCity grouped
    /\ NoDup (Grouped.label <$> grouped)
    /\ StronglySorted (fun a b => String.leb a b = true) (Grouped.label <$> grouped)
    /\ (forall c, c ∈ Grouped.label <$> grouped <-> c ∈ cities)
    /\ forall g, g ∈ grouped -> city_aggregate final x g.
Proof.
  intros Hc Hopt. unfold custom_doi_view.
  rewrite (is_empty_explicit _ Hc), (resolve_explicit _ _ Hc), resolve_nil. simpl.
  set (filtered := filtered_df final cities (all_products final)).
  assert (Hprod : forall r, r ∈ final -> Final.PRODUCT_NAME r ∈ all_products final).
  { intros r Hr. apply elem_of_all_products. by apply list_elem_of_fmap_2. }
  assert (Hlabel : forall c,
    c ∈ Grouped.label <$> regroup Merged.CITY x (recalculate x <$> filtered) <-> c ∈ cities).
  { intros c. rewrite regroup_labels, elem_of_sort_by, elem_of_drop_duplicates.
    rewrite <- list_fmap_compose, list_elem_of_fmap. unfold filtered, filtered_df.
    setoid_rewrite list_elem_of_filter. simpl. split.
    - by intros (r & -> & [Hin _] & _).
    - intros Hin. destruct (proj1 (list_elem_of_fmap _ _ _) (Hopt c Hin)) as (r & -> & Hr).
      exists r. auto. }
  eexists. split; [reflexivity|]. split; [|split; [|split; [exact Hlabel|]]].
  - rewrite regroup_labels. apply NoDup_sort_by, NoDup_drop_duplicates.
  - rewrite regroup_labels. apply sort_by_sorted.
    + apply String.leb_total.
    + apply str_leb_trans.
  - intros g Hg. unfold city_aggregate.
    assert (Hsel : Grouped.label g ∈ cities)
      by (apply Hlabel; by apply list_elem_of_fmap_2).
    destruct (regroup_row _ _ _ _ Hg) as (HU & HW & HP & HD & HDOI).
    rewrite recalculate_city_rows in HU, HW, HP.
    rewrite <- list_fmap_compose in HU, HW, HP.
    unfold filtered in HU, HW, HP.
    rewrite (city_rows_of_selection _ _ _ _ Hsel Hprod) in HU, HW, HP.
    auto.
Qed.

Lemma city_view_regroups_witness :
  explicit ["MUMBAI"] = true
  /\ exists grouped,
       custom_doi_view (final_df two_item_sales two_item_inventory 7) 7 ["MUMBAI"] []
       = ByCity grouped
       /\ NoDup (Grouped.label <$> grouped)
       /\ StronglySorted (fun a b => String.leb a b = true) (Grouped.label <$> grouped)
       /\ (forall c, c ∈ Grouped.label <$> grouped <-> c ∈ ["MUMBAI"])
       /\ forall g, g ∈ grouped ->
            city_aggregate (final_df two_item_sales two_item_inventory 7) 7 g.
Proof.
  split; [reflexivity|].
  apply city_view_regroups; [reflexivity|].
  intros c Hc. apply list_elem_of_singleton in Hc. rewrite Hc.
  apply list_elem_of_lookup. exists 0%nat. vm_compute. reflexivity.
Defined.

(** The DOI of a city is computed from the city's sums: with 100 and 30
    units in stock against 7 and 3 sold a day, the rows show 14 and 10 days
    while the city shows floor(130 / 10) = 13, neither the sum nor the mean
    of 14 and 10. *)
Example city_doi_from_sums :
  Final.DOI <$> final_df two_item_sales two_item_inventory 7
  = [Float64.of_int 14; Float64.of_int 10]
  /\ custom_doi_view (final_df two_item_sales two_item_inventory 7) 7 ["MUMBAI"] []
     = ByCity
         [{| Grouped.label := "MUMBAI"; Grouped.UNITS_SOLD := 70;
             Grouped.WAREHOUSE_QTY := 130; Grouped.OPEN_PO_QUANTITY := 14;
             Grouped.DAILY_SALES := Float64.of_int 10;
             Grouped.DOI := Float64.of_int 13 |}].
Proof. split; vm_compute; reflexivity. Qed.

(** C6, as stated, fails when the products are set to "All": the product
    selection is then not explicit, yet it is not empty, and the view is
    the detail table with both rows of the selected city, not a table with
    one row per city. *)
Lemma city_view_with_all_products :
  explicit ["MUMBAI"] = true
  /\ explicit ["All"] = false
  /\ custom_doi_view (final_df two_item_sales two_item_inventory 7) 7 ["MUMBAI"] ["All"]
     = Detail
         [{| Final.CITY := "MUMBAI"; Final.ITEM_CODE := "SKU1";
             Final.PRODUCT_NAME := "Widget"; Final.UNITS_SOLD := 49;
             Final.WAREHOUSE_QTY := 100; Final.OPEN_PO_QUANTITY := 10;
             Final.DOI := Float64.of_int 14 |};
          {| Final.CITY := "MUMBAI"; Final.ITEM_CODE := "SKU3";
             Final.PRODUCT_NAME := "Gadget"; Final.UNITS_SOLD := 21;
             Final.WAREHOUSE_QTY := 30; Final.OPEN_PO_QUANTITY := 4;
             Final.DOI := Float64.of_int 10 |}]
  /\ ~ (exists grouped,
          custom_doi_view (final_df two_item_sales two_item_inventory 7) 7
            ["MUMBAI"] ["All"]
          = ByCity grouped).
Proof.
  assert (Hview :
    custom_doi_view (final_df two_item_sales two_item_inventory 7) 7 ["MUMBAI"] ["All"]
    = Detail
         [{| Final.CITY := "MUMBAI"; Final.ITEM_CODE := "SKU1";
             Final.PRODUCT_NAME := "Widget"; Final.UNITS_SOLD := 49;
             Final.WAREHOUSE_QTY := 100; Final.OPEN_PO_QUANTITY := 10;
             Final.DOI := Float64.of_int 14 |};
          {| Final.CITY := "MUMBAI"; Final.ITEM_CODE := "SKU3";
             Final.PRODUCT_NAME := "Gadget"; Final.UNITS_SOLD := 21;
             Final.WAREHOUSE_QTY := 30; Final.OPEN_PO_QUANTITY := 4;
             Final.DOI := Float64.of_int 10 |}])
    by (vm_compute; reflexivity).
  split; [reflexivity|]. split; [reflexivity|]. split; [exact Hview|].
  intros [grouped Hg]. rewrite Hview in Hg. discriminate.
Qed.

(** * Further properties of the script *)

(** ** Letter case *)

Lemma ascii_upper_idemp (c : ascii) : ascii_upper (ascii_upper c) = ascii_upper c.
Proof. by destruct c as [[] [] [] [] [] [] [] []]. Qed.

Lemma ascii_lower_upper (c : ascii) : ascii_lower (ascii_upper c) = ascii_lower c.
Proof. by destruct c as [[] [] [] [] [] [] [] []]. Qed.

Lemma str_upper_idemp (s : string) : str_upper (str_upper s) = str_upper s.
Proof. induction s as [|c s IH]; simpl; [done|]. by rewrite ascii_upper_idemp, IH. Qed.

(** A byte above 127 is no upper-cased ASCII letter. *)
Lemma high_byte_upper (b c : ascii) :
  (128 <=? N_of_ascii b)%N = true -> Ascii.eqb b (ascii_upper c) = Ascii.eqb b c.
Proof.
  intros Hb. apply N.leb_le in Hb.
  destruct (Ascii.eqb_spec b c) as [->|Hne].
  - apply Ascii.eqb_eq. unfold ascii_upper.
    destruct ((97 <=? N_of_ascii c) && (N_of_ascii c <=? 122))%N eqn:Hc; [|done].
    apply andb_true_iff in Hc as [_ Hc]. apply N.leb_le in Hc. lia.
  - apply Ascii.eqb_neq. intros ->. unfold ascii_upper in *.
    destruct ((97 <=? N_of_ascii c) && (N_of_ascii c <=? 122))%N eqn:Hc; [|done].
    apply andb_true_iff in Hc as [Hc1 Hc2]. apply N.leb_le in Hc1, Hc2.
    rewrite N_ascii_embedding in Hb by lia. lia.
Qed.

Lemma strip_prefix_upper (sp s : string) :
  forallb (fun b => (128 <=? N_of_ascii b)%N) (list_ascii_of_string sp) = true ->
  strip_prefix sp (str_upper s) = str_upper <$> strip_prefix sp s.
Proof.
  revert s. induction sp as [|b sp IH]; intros s Hsp; [done|].
  cbn [list_ascii_of_string forallb] in Hsp. apply andb_true_iff in Hsp as [Hb Hsp].
  destruct s as [|c s]; [done|]. cbn [str_upper strip_prefix].
  rewrite (high_byte_upper _ _ Hb). destruct (Ascii.eqb b c); [by apply IH|done].
Qed.

Lemma match_char_upper (p : ascii) (s : string) :
  match_char p (str_upper s) = str_upper <$> match_char p s.
Proof.
  unfold match_char. rewrite fmap_app. f_equal.
  - destruct s as [|c s]; [done|]. simpl. rewrite ascii_lower_upper.
    by destruct (Ascii.eqb _ _).
  - assert (Hall : forall sp, sp ∈ further_letters p ->
                   strip_prefix sp (str_upper s) = str_upper <$> strip_prefix sp s).
    { intros sp Hsp. apply strip_prefix_upper. apply further_letters_spec in Hsp.
      by destruct Hsp as [[_ [-> | ->]] | [[_ ->] | [_ ->]]]. }
    induction (further_letters p) as [|sp l IH]; [done|]. cbn [omap list_omap].
    rewrite (Hall sp) by (by left).
    destruct (strip_prefix sp s); simpl; rewrite IH; try done;
      intros sp' Hsp'; apply Hall; by right.
Qed.

Lemma match_here_upper (pat s : string) :
  match_here pat (str_upper s) = match_here pat s.
Proof.
  revert s. induction pat as [|p pat IH]; intros s; [done|]. simpl.
  rewrite match_char_upper. induction (match_char p s) as [|t l IHl]; [done|].
  rewrite fmap_cons. cbn [existsb]. by rewrite IH, IHl.
Qed.

Lemma re_search_upper (alts : list string) (s : string) :
  re_search alts (str_upper s) = re_search alts s.
Proof.
  assert (Hhere : forall t, existsb (fun pat => match_here pat (str_upper t)) alts
                            = existsb (fun pat => match_here pat t) alts).
  { intros t. induction alts as [|a alts IHa]; [done|].
    cbn [existsb]. by rewrite IHa, match_here_upper. }
  induction s as [|c s IH].
  - done.
  - change (str_upper (String c s)) with (String (ascii_upper c) (str_upper s)).
    cbn [re_search]. rewrite IH.
    change (String (ascii_upper c) (str_upper s)) with (str_upper (String c s)).
    by rewrite Hhere.
Qed.

(** X1. The exclusion mask does not depend on the letter case of the product
    name: a name and its upper-cased form are excluded together. *)
Theorem name_excluded_upper (s : string) :
  name_excluded (Some (str_upper s)) = name_excluded (Some s).
Proof. unfold name_excluded, str_contains. apply re_search_upper. Qed.

(** ** The product names given to the sales *)

Lemma last_cons_Some {A : Type} (a : A) (l : list A) :
  last (a :: l) = Some (default a (last l)).
Proof.
  revert a. induction l as [|b l IH]; intros a; [done|].
  change (last (a :: b :: l)) with (last (b :: l)). rewrite IH.
  simpl. by destruct (last l).
Qed.

Lemma foldl_insert_lookup (agg : list InventoryAgg.row) (d : gmap string string)
    (code : string) :
  foldl (fun d r => <[InventoryAgg.SkuCode r := InventoryAgg.SkuDescription r]> d) d agg
    !! code
  = match last (filter (fun r => InventoryAgg.SkuCode r = code) agg) with
    | Some r => Some (InventoryAgg.SkuDescription r)
    | None => d !! code
    end.
Proof.
  revert d. induction agg as [|a agg IH]; intros d; [done|].
  simpl. rewrite IH, filter_cons.
  destruct (decide (InventoryAgg.SkuCode a = code)) as [Heq|Hne].
  - rewrite last_cons_Some.
    destruct (last (filter _ agg)) as [r|]; [done|]. simpl.
    by rewrite Heq, lookup_insert_eq.
  - destruct (last (filter _ agg)) as [r|]; [done|].
    by rewrite lookup_insert_ne.
Qed.

(** X2. The dictionary from item codes to product names answers, for an
    item code, with the description of the last row of the aggregated
    inventory that has this SkuCode, and with nothing when no row has it. *)
Theorem item_to_product_map_lookup (agg : list InventoryAgg.row) (code : string) :
  item_to_product_map agg !! code
  = InventoryAgg.SkuDescription
    <$> last (filter (fun r => InventoryAgg.SkuCode r = code) agg).
Proof.
  unfold item_to_product_map. rewrite foldl_insert_lookup.
  by destruct (last _).
Qed.

Lemma item_to_product_map_Some (agg : list InventoryAgg.row) (code p : string) :
  item_to_product_map agg !! code = Some p ->
  exists a, a ∈ agg /\ InventoryAgg.SkuCode a = code /\ InventoryAgg.SkuDescription a = p.
Proof.
  unfold item_to_product_map. rewrite foldl_insert_lookup.
  destruct (last (filter _ agg)) as [a|] eqn:Hlast; [|by rewrite lookup_empty].
  intros [= <-]. exists a. apply last_Some_elem_of, list_elem_of_filter in Hlast. tauto.
Qed.

Lemma inventory_key_Some (i : Inventory.row) (k : key3) :
  inventory_key i = Some k
  <-> Inventory.City i = Some k.1.1 /\ Inventory.SkuDescription i = Some k.1.2
      /\ Inventory.SkuCode i = Some k.2.
Proof.
  unfold inventory_key. destruct k as [[c d] s]. simpl.
  destruct (Inventory.City i) as [c'|], (Inventory.SkuDescription i) as [d'|],
    (Inventory.SkuCode i) as [s'|]; simpl; split; try done; try (by intros (? & ? & ?)).
  - by intros [= -> -> ->].
  - by intros ([= ->] & [= ->] & [= ->]).
Qed.

Lemma sales_key_Some (r : Sales.row) (k : key3) :
  sales_key r = Some k
  <-> Sales.CITY r = Some k.1.1 /\ Sales.PRODUCT_NAME r = Some k.1.2
      /\ Sales.ITEM_CODE r = Some k.2.
Proof.
  unfold sales_key. destruct k as [[c p] i]. simpl.
  destruct (Sales.CITY r) as [c'|], (Sales.PRODUCT_NAME r) as [p'|],
    (Sales.ITEM_CODE r) as [i'|]; simpl; split; try done; try (by intros (? & ? & ?)).
  - by intros [= -> -> ->].
  - by intros ([= ->] & [= ->] & [= ->]).
Qed.

Lemma inventory_agg_row (Inventory_df : list Inventory.row) (a : InventoryAgg.row) :
  a ∈ inventory_agg Inventory_df ->
  exists i, i ∈ Inventory_df
            /\ inventory_key i
               = Some (InventoryAgg.City a, InventoryAgg.SkuDescription a,
                       InventoryAgg.SkuCode a).
Proof.
  unfold inventory_agg, groupby. rewrite <- list_fmap_compose, list_elem_of_fmap.
  intros ([[c d] s] & -> & Hk). simpl. by apply elem_of_group_keys in Hk.
Qed.

(** The window is computed on the dates, which the assignment of the
    product names leaves alone. *)
Lemma filter_recent_named (Sales_df : list Sales.row) (Inventory_df : list Inventory.row)
    (x : Z) :
  filter_recent (named_sales Sales_df Inventory_df) x
  = assign_product_name (item_to_product_map (inventory_agg Inventory_df))
    <$> filter_recent Sales_df x.
Proof.
  unfold filter_recent, recent_dates, named_sales.
  rewrite <- list_fmap_compose.
  rewrite (list_fmap_ext (Sales.ORDERED_DATE ∘ assign_product_name _) Sales.ORDERED_DATE)
    by done.
  generalize (tail x (sort_by Z.leb (drop_duplicates (Sales.ORDERED_DATE <$> Sales_df)))).
  intros dates. induction Sales_df as [|r l IH]; [done|].
  rewrite fmap_cons, !filter_cons. simpl.
  destruct (decide (Sales.ORDERED_DATE r ∈ dates)); by rewrite IH.
Qed.

(** X3. Every row of the aggregated sales stands for a sale of the window
    in a city and of its item, and its item code and product name stand
    together on a row of the inventory file.  So the sales of an item code
    that the inventory does not know are on no row of the aggregated sales.
    When the city of the sale is written in ASCII, the CITY of the row is
    that city in upper case. *)
Theorem sales_selected_backed (Sales_df : list Sales.row)
    (Inventory_df : list Inventory.row) (x : Z) (s : SalesGrouped.row) :
  s ∈ sales_selected Sales_df Inventory_df x ->
  (exists r c, r ∈ filter_recent Sales_df x
               /\ Sales.CITY r = Some c
               /\ (is_ascii c = true -> SalesGrouped.CITY s = str_upper c)
               /\ Sales.ITEM_CODE r = Some (SalesGrouped.ITEM_CODE s))
  /\ (exists i, i ∈ Inventory_df
                /\ Inventory.SkuCode i = Some (SalesGrouped.ITEM_CODE s)
                /\ Inventory.SkuDescription i = Some (SalesGrouped.PRODUCT_NAME s)).
Proof.
  unfold sales_selected, sales_filtered_grouped_df, groupby.
  rewrite <- list_fmap_compose, list_elem_of_fmap.
  intros ([[c p] i] & -> & Hk). simpl.
  apply elem_of_group_keys in Hk as (r & Hr & Hkey).
  rewrite filter_recent_named in Hr. apply list_elem_of_fmap in Hr as (r0 & -> & Hr0).
  apply sales_key_Some in Hkey as (Hc & Hp & Hi). simpl in Hc, Hp, Hi.
  rewrite Hi in Hp. simpl in Hp. split.
  - by exists r0, c.
  - apply item_to_product_map_Some in Hp as (a & Ha & <- & <-).
    apply inventory_agg_row in Ha as (inv & Hinv & Hkinv).
    apply inventory_key_Some in Hkinv as (_ & Hd & Hs). by exists inv.
Qed.

Lemma sales_selected_backed_witness :
  let s := {| SalesGrouped.CITY := "MUMBAI"; SalesGrouped.PRODUCT_NAME := "Widget";
              SalesGrouped.ITEM_CODE := "SKU1"; SalesGrouped.UNITS_SOLD := 7 |} in
  s ∈ sales_selected sample_sales sample_inventory 7
  /\ (exists r c, r ∈ filter_recent sample_sales 7
                  /\ Sales.CITY r = Some c
                  /\ (is_ascii c = true -> SalesGrouped.CITY s = str_upper c)
                  /\ Sales.ITEM_CODE r = Some (SalesGrouped.ITEM_CODE s))
  /\ exists i, i ∈ sample_inventory
               /\ Inventory.SkuCode i = Some (SalesGrouped.ITEM_CODE s)
               /\ Inventory.SkuDescription i = Some (SalesGrouped.PRODUCT_NAME s).
Proof.
  assert (Hin : {| SalesGrouped.CITY := "MUMBAI"; SalesGrouped.PRODUCT_NAME := "Widget";
              SalesGrouped.ITEM_CODE := "SKU1"; SalesGrouped.UNITS_SOLD := 7 |}
           ∈ sales_selected sample_sales sample_inventory 7).
  { apply list_elem_of_lookup. exists 1%nat. vm_compute. reflexivity. }
  split; [exact Hin|].
  exact (sales_selected_backed sample_sales sample_inventory 7 _ Hin).
Defined.

(** ** Rows of the join *)

Lemma merged_df_joined (Sales_df : list Sales.row) (Inventory_df : list Inventory.row)
    (x : Z) (r : Merged.row) :
  r ∈ merged_df Sales_df Inventory_df x
  <-> exists l o,
        (l, o) ∈ merge_left (inventory_renamed (inventory_agg Inventory_df))
                   (sales_selected Sales_df Inventory_df x)
        /\ r = merged_row x
                 (bool_decide (Exists (fun j => j.2 = None)
                    (merge_left (inventory_renamed (inventory_agg Inventory_df))
                       (sales_selected Sales_df Inventory_df x))))
                 (l, o).
Proof.
  unfold merged_df, merged_of. rewrite list_elem_of_fmap. split.
  - intros ([l o] & -> & Hj). by exists l, o.
  - intros (l & o & Hj & ->). by exists (l, o).
Qed.

Lemma inventory_part_merged_row (x : Z) (has_nan : bool)
    (j : InventoryRenamed.row * option Z) :
  inventory_part (merged_row x has_nan j) = j.1.
Proof. by destruct j as [[c i p po wh] o]. Qed.

Lemma merge_left_covers (left : list InventoryRenamed.row) (right : list SalesGrouped.row)
    (l : InventoryRenamed.row) :
  l ∈ left -> exists o, (l, o) ∈ merge_left left right.
Proof.
  intros Hl. destruct (matches right l) as [|s ms] eqn:Hm.
  - exists None. apply merge_left_rows. split; [done|]. by left.
  - exists (Some (SalesGrouped.UNITS_SOLD s)). apply merge_left_rows. split; [done|].
    right. exists s. assert (Hs : s ∈ matches right l) by (rewrite Hm; by left).
    apply list_elem_of_filter in Hs as [? ?]. done.
Qed.

(** X4. The final table lists the aggregated inventory, sold or not: the
    inventory columns of its rows are exactly the rows of the aggregated
    inventory whose product name is not excluded.  No row comes from the
    sales alone, and no inventory row is lost for want of sales. *)
Theorem final_df_inventory_rows (Sales_df : list Sales.row)
    (Inventory_df : list Inventory.row) (x : Z) (l : InventoryRenamed.row) :
  l ∈ final_inventory_part <$> final_df Sales_df Inventory_df x
  <-> l ∈ inventory_renamed (inventory_agg Inventory_df)
      /\ name_excluded (Some (InventoryRenamed.PRODUCT_NAME l)) = false.
Proof.
  unfold final_df. rewrite list_elem_of_fmap. split.
  - intros (r & -> & Hr). apply final_of_row in Hr as (m & -> & Hm).
    unfold merged_kept, exclusion_filter in Hm.
    apply list_elem_of_filter in Hm as [Hname Hm].
    apply merged_df_joined in Hm as (l & o & Hj & ->).
    apply merge_left_rows in Hj as [Hl _]. by destruct l.
  - intros [Hl Hname].
    destruct (merge_left_covers _ (sales_selected Sales_df Inventory_df x) _ Hl) as [o Hj].
    eexists (project_final (merged_row x _ (l, o))). split.
    2:{ apply final_of_row. eexists. split; [reflexivity|].
        unfold merged_kept, exclusion_filter. apply list_elem_of_filter. split.
        2:{ apply merged_df_joined. by exists l, o. }
        exact Hname. }
    by destruct l.
Qed.

(** The units of a reconciled row: none when no sales row has its key,
    else the units of a sales row with its key. *)
Lemma merged_df_units (Sales_df : list Sales.row) (Inventory_df : list Inventory.row)
    (x : Z) (m : Merged.row) :
  m ∈ merged_df Sales_df Inventory_df x ->
  (Merged.UNITS_SOLD m = 0 /\ Merged.DOI m = Float64.zero)
  \/ exists s, s ∈ sales_selected Sales_df Inventory_df x /\ same_key (inventory_part m) s.
Proof.
  intros Hm. apply merged_df_joined in Hm as (l & o & Hj & ->).
  rewrite inventory_part_merged_row. simpl.
  apply merge_left_rows in Hj as [_ [[_ ->]|(s & Hs & Hk & _)]].
  - left. unfold merged_row. simpl. rewrite fill_units_missing.
    split; [done|]. apply doi_lambda_no_units.
  - right. by exists s.
Qed.

(** X5. An inventory row without sales in the window is shown with 0 units
    sold and a DOI of 0: when no row of the aggregated sales has the city,
    item code and product name of a reconciled row, its UNITS_SOLD is 0 and
    its DOI is 0, whatever its stock. *)
Theorem unmatched_row_shows_zero (Sales_df : list Sales.row)
    (Inventory_df : list Inventory.row) (x : Z) (m : Merged.row) :
  m ∈ merged_df Sales_df Inventory_df x ->
  (forall s, s ∈ sales_selected Sales_df Inventory_df x -> ~ same_key (inventory_part m) s) ->
  Merged.UNITS_SOLD m = 0 /\ Merged.DOI m = Float64.zero.
Proof.
  intros Hm Hnone. destruct (merged_df_units _ _ _ _ Hm) as [?|(s & Hs & Hk)]; [done|].
  by destruct (Hnone s Hs).
Qed.

Lemma unmatched_row_shows_zero_witness :
  let m := merged_row 7 true
             ({| InventoryRenamed.CITY := "MUMBAI"; InventoryRenamed.ITEM_CODE := "SKU2";
                 InventoryRenamed.PRODUCT_NAME := "Gift Box";
                 InventoryRenamed.OPEN_PO_QUANTITY := 1;
                 InventoryRenamed.WAREHOUSE_QTY := 5 |}, None) in
  m ∈ merged_df sample_sales sample_inventory 7
  /\ Merged.UNITS_SOLD m = 0 /\ Merged.DOI m = Float64.zero.
Proof.
  assert (Hin : merged_row 7 true
             ({| InventoryRenamed.CITY := "MUMBAI"; InventoryRenamed.ITEM_CODE := "SKU2";
                 InventoryRenamed.PRODUCT_NAME := "Gift Box";
                 InventoryRenamed.OPEN_PO_QUANTITY := 1;
                 InventoryRenamed.WAREHOUSE_QTY := 5 |}, None)
           ∈ merged_df sample_sales sample_inventory 7).
  { apply list_elem_of_lookup. exists 1%nat. vm_compute. reflexivity. }
  split; [exact Hin|].
  apply (unmatched_row_shows_zero sample_sales sample_inventory 7 _ Hin).
  apply Forall_forall. apply (bool_decide_unpack _). vm_compute. exact I.
Defined.

(** X6. The cities of the sales are upper-cased for the join and those of
    the inventory are not: a row of the reconciled table whose city is not
    already in upper case is joined with no sales, and shows 0 units sold
    and a DOI of 0. *)
Theorem lower_case_city_shows_zero (Sales_df : list Sales.row)
    (Inventory_df : list Inventory.row) (x : Z) (m : Merged.row) :
  m ∈ merged_df Sales_df Inventory_df x ->
  str_upper (Merged.CITY m) <> Merged.CITY m ->
  Merged.UNITS_SOLD m = 0 /\ Merged.DOI m = Float64.zero.
Proof.
  intros Hm Hcase. destruct (merged_df_units _ _ _ _ Hm) as [?|(s & Hs & Hc & _)]; [done|].
  exfalso. apply Hcase. simpl in Hc. rewrite Hc.
  unfold sales_selected, sales_filtered_grouped_df in Hs.
  apply list_elem_of_fmap in Hs as (g & -> & _). simpl. apply str_upper_idemp.
Qed.

Lemma lower_case_city_shows_zero_witness :
  let m := merged_row 7 true
             ({| InventoryRenamed.CITY := "Pune"; InventoryRenamed.ITEM_CODE := "SKU1";
                 InventoryRenamed.PRODUCT_NAME := "Widget";
                 InventoryRenamed.OPEN_PO_QUANTITY := 3;
                 InventoryRenamed.WAREHOUSE_QTY := 40 |}, None) in
  Int64.sum (Sales.UNITS_SOLD <$> filter_recent lower_case_sales 7) = 14
  /\ m ∈ merged_df lower_case_sales lower_case_inventory 7
  /\ Merged.UNITS_SOLD m = 0 /\ Merged.DOI m = Float64.zero.
Proof.
  assert (Hin : merged_row 7 true
             ({| InventoryRenamed.CITY := "Pune"; InventoryRenamed.ITEM_CODE := "SKU1";
                 InventoryRenamed.PRODUCT_NAME := "Widget";
                 InventoryRenamed.OPEN_PO_QUANTITY := 3;
                 InventoryRenamed.WAREHOUSE_QTY := 40 |}, None)
           ∈ merged_df lower_case_sales lower_case_inventory 7).
  { apply list_elem_of_lookup. exists 0%nat. vm_compute. reflexivity. }
  split; [vm_compute; reflexivity|]. split; [exact Hin|].
  apply (lower_case_city_shows_zero lower_case_sales lower_case_inventory 7 _ Hin).
  vm_compute. discriminate.
Defined.

(** ** The window holds the latest dates *)

Lemma Z_leb_total (a b : Z) : (a <=? b) = true \/ (b <=? a) = true.
Proof. destruct (Z.leb_spec a b), (Z.leb_spec b a); auto; lia. Qed.

Lemma Z_leb_trans (a b c : Z) : (a <=? b) = true -> (b <=? c) = true -> (a <=? c) = true.
Proof. rewrite !Z.leb_le. lia. Qed.

Lemma tail_drop {A : Type} (n : Z) (l : list A) :
  1 <= n -> tail n l = drop (length l - Z.to_nat n) l.
Proof.
  intros Hn. unfold tail.
  destruct (Z.eqb_spec n 0) as [?|_]; [lia|].
  by destruct (Z.ltb_spec 0 n) as [_|?]; [|lia].
Qed.

(** The distinct dates of the file in ascending order, split at the start
    of the window. *)
Lemma recent_dates_split (Sales_df : list Sales.row) (n : Z) :
  1 <= n ->
  exists older,
    sort_by Z.leb (drop_duplicates (Sales.ORDERED_DATE <$> Sales_df))
    = older ++ recent_dates Sales_df n
    /\ length (recent_dates Sales_df n) = (Z.to_nat n `min` unique_days Sales_df)%nat.
Proof.
  intros Hn. unfold recent_dates, unique_days. rewrite tail_drop by done.
  set (dates := sort_by Z.leb (drop_duplicates (Sales.ORDERED_DATE <$> Sales_df))).
  exists (take (length dates - Z.to_nat n) dates). split.
  - by rewrite take_drop.
  - rewrite length_drop.
    assert (Hlen : length dates = length (drop_duplicates (Sales.ORDERED_DATE <$> Sales_df)))
      by (unfold dates; by rewrite sort_by_perm).
    rewrite <- Hlen. lia.
Qed.

Lemma recent_dates_later (Sales_df : list Sales.row) (n d d' : Z) :
  1 <= n ->
  d ∈ recent_dates Sales_df n ->
  d' ∈ Sales.ORDERED_DATE <$> Sales_df ->
  d' ∉ recent_dates Sales_df n ->
  d' < d.
Proof.
  intros Hn Hd Hd' Hout.
  destruct (recent_dates_split Sales_df n Hn) as (older & Hsplit & _).
  assert (Hsorted : StronglySorted (fun b c => (b <=? c) = true)
                      (older ++ recent_dates Sales_df n)).
  { rewrite <- Hsplit. apply sort_by_sorted; [apply Z_leb_total|apply Z_leb_trans]. }
  assert (Hnodup : NoDup (older ++ recent_dates Sales_df n)).
  { rewrite <- Hsplit. apply NoDup_sort_by, NoDup_drop_duplicates. }
  assert (Hold : d' ∈ older).
  { assert (Hin : d' ∈ older ++ recent_dates Sales_df n).
    { rewrite <- Hsplit. by rewrite elem_of_sort_by, elem_of_drop_duplicates. }
    apply elem_of_app in Hin as [?|?]; done. }
  assert (Hle : (d' <=? d) = true) by (exact (StronglySorted_app_1_elem_of _ _ _ _ _ Hsorted Hold Hd)).
  apply Z.leb_le in Hle.
  apply NoDup_app in Hnodup as (_ & Hdisj & _).
  assert (d' <> d) by (intros ->; by eapply Hdisj). lia.
Qed.

(** X7. The window holds the latest dates: for a window size of at least 1,
    every sales record that the window keeps is dated strictly after every
    record of the file that it drops. *)
Theorem window_keeps_latest (Sales_df : list Sales.row) (n : Z) (r r' : Sales.row) :
  1 <= n ->
  r ∈ filter_recent Sales_df n ->
  r' ∈ Sales_df ->
  r' ∉ filter_recent Sales_df n ->
  Sales.ORDERED_DATE r' < Sales.ORDERED_DATE r.
Proof.
  intros Hn Hr Hr' Hout. unfold filter_recent in *.
  apply list_elem_of_filter in Hr as [Hd _].
  apply (recent_dates_later Sales_df n); [done|done|by apply list_elem_of_fmap_2|].
  intros Hd'. apply Hout. by apply list_elem_of_filter.
Qed.

Lemma window_keeps_latest_witness :
  1 <= 2
  /\ Sales.ORDERED_DATE (sale 5 "Mumbai" "SKU1" 1) < Sales.ORDERED_DATE (sale 7 "Delhi" "SKU1" 4).
Proof.
  split; [lia|].
  apply (window_keeps_latest sample_sales 2); [lia| | |].
  - apply list_elem_of_lookup. exists 2%nat. vm_compute. reflexivity.
  - apply list_elem_of_lookup. exists 4%nat. vm_compute. reflexivity.
  - unfold filter_recent. rewrite list_elem_of_filter. intros [Hd _]. revert Hd.
    apply (bool_decide_unpack _). vm_compute. exact I.
Defined.

(** X8. The window spans as many dates as asked for: for a window size [n]
    of at least 1, the records that the window keeps carry [n] distinct
    dates, or every date of the file when the file has fewer than [n]. *)
Theorem window_spans_n_days (Sales_df : list Sales.row) (n : Z) :
  1 <= n ->
  unique_days (filter_recent Sales_df n) = (Z.to_nat n `min` unique_days Sales_df)%nat.
Proof.
  intros Hn. destruct (recent_dates_split Sales_df n Hn) as (older & Hsplit & <-).
  unfold unique_days at 1. apply Permutation_length, NoDup_Permutation.
  - apply NoDup_drop_duplicates.
  - assert (Hnodup : NoDup (older ++ recent_dates Sales_df n)).
    { rewrite <- Hsplit. apply NoDup_sort_by, NoDup_drop_duplicates. }
    by apply NoDup_app in Hnodup as (_ & _ & ?).
  - intros d. rewrite elem_of_drop_duplicates, list_elem_of_fmap. unfold filter_recent.
    setoid_rewrite list_elem_of_filter. split.
    + by intros (r & -> & Hd & _).
    + intros Hd. assert (Hin : d ∈ Sales.ORDERED_DATE <$> Sales_df).
      { rewrite <- elem_of_drop_duplicates, <- (elem_of_sort_by Z.leb), Hsplit.
        apply elem_of_app. by right. }
      apply list_elem_of_fmap in Hin as (r & -> & Hr). by exists r.
Qed.

Lemma window_spans_n_days_witness :
  1 <= 3 /\ unique_days (filter_recent sample_sales 3) = 3%nat.
Proof. split; [lia|]. apply (window_spans_n_days sample_sales 3). lia. Defined.

(** ** Aggregation keeps the totals *)

Lemma wrap_add_l (a b : Z) : Int64.wrap (Int64.wrap a + b) = Int64.wrap (a + b).
Proof.
  unfold Int64.wrap. f_equal.
  replace ((a + Int64.half_modulus) mod Int64.modulus - Int64.half_modulus + b
           + Int64.half_modulus)
    with ((a + Int64.half_modulus) mod Int64.modulus + b) by lia.
  rewrite Zplus_mod_idemp_l. f_equal. lia.
Qed.

Lemma wrap_add_r (a b : Z) : Int64.wrap (a + Int64.wrap b) = Int64.wrap (a + b).
Proof. by rewrite (Z.add_comm a), wrap_add_l, (Z.add_comm b). Qed.

Lemma total_cons (a : Z) (l : list Z) : total (a :: l) = a + total l.
Proof. reflexivity. Qed.

(** The int64 sum of a column is its exact sum, wrapped once. *)
Lemma sum_wrap_total (l : list Z) : Int64.sum l = Int64.wrap (total l).
Proof.
  unfold Int64.sum.
  assert (Hgen : forall a, Int64.wrap (foldl Int64.add a l) = Int64.wrap (a + total l)
                           /\ (l <> [] -> foldl Int64.add a l = Int64.wrap (a + total l))).
  { induction l as [|b l IH]; intros a; simpl.
    - split; [by rewrite Z.add_0_r|done].
    - destruct (IH (Int64.add a b)) as [IH1 IH2]. unfold Int64.add in *.
      assert (Heq : Int64.wrap (Int64.wrap (a + b) + total l)
                    = Int64.wrap (a + (b + total l)))
        by (rewrite wrap_add_l; f_equal; lia).
      split; [by rewrite IH1|]. intros _. destruct l as [|c l]; [|by rewrite IH2].
      simpl. f_equal. lia. }
  destruct l as [|b l]; [done|]. by apply Hgen.
Qed.

Lemma wrap_total_wrapped {K : Type} (g : K -> Z) (ks : list K) :
  Int64.wrap (total ((fun k => Int64.wrap (g k)) <$> ks)) = Int64.wrap (total (g <$> ks)).
Proof.
  induction ks as [|k ks IH]; [done|]. rewrite !fmap_cons.
  change (Int64.wrap (Int64.wrap (g k) + total ((fun k => Int64.wrap (g k)) <$> ks))
          = Int64.wrap (g k + total (g <$> ks))).
  rewrite wrap_add_l.
  rewrite <- (wrap_add_r (g k) (total ((fun k => Int64.wrap (g k)) <$> ks))).
  by rewrite IH, wrap_add_r.
Qed.

Lemma total_fmap_add {K : Type} (a b : K -> Z) (ks : list K) :
  total ((fun k => a k + b k) <$> ks) = total (a <$> ks) + total (b <$> ks).
Proof.
  induction ks as [|k ks IH]; [done|]. rewrite !fmap_cons, !total_cons, IH. lia.
Qed.

Lemma total_fmap_zero {K : Type} (ks : list K) : total ((fun _ => 0) <$> ks) = 0.
Proof. induction ks as [|k ks IH]; [done|]. by rewrite fmap_cons, total_cons, IH. Qed.

Lemma total_fmap_ext {K : Type} (a b : K -> Z) (ks : list K) :
  (forall k, k ∈ ks -> a k = b k) -> total (a <$> ks) = total (b <$> ks).
Proof.
  induction ks as [|k ks IH]; intros Hab; [done|]. rewrite !fmap_cons, !total_cons.
  rewrite (Hab k) by (by left). rewrite IH; [done|]. intros k' Hk'. apply Hab. by right.
Qed.

Lemma total_fmap_only {K : Type} `{EqDecision K} (k0 : K) (v : Z) (ks : list K) :
  NoDup ks -> k0 ∈ ks ->
  total ((fun k => if decide (k = k0) then v else 0) <$> ks) = v.
Proof.
  induction ks as [|k ks IH]; intros Hnd Hin; [by apply elem_of_nil in Hin|].
  apply NoDup_cons in Hnd as [Hk Hnd]. rewrite fmap_cons, total_cons.
  destruct (decide (k = k0)) as [->|Hne].
  - rewrite (total_fmap_ext _ (fun _ => 0)), total_fmap_zero; [lia|].
    intros k' Hk'. destruct (decide (k' = k0)) as [->|]; done.
  - rewrite IH; [lia|done|]. apply elem_of_cons in Hin as [->|?]; done.
Qed.

Section GroupTotals.
Context {R K : Type} `{EqDecision K}.
Variable leb : K -> K -> bool.
Variable key : R -> option K.
Variable f : R -> Z.

(** The exact sums of the groups of a key list that has every key once add
    up to the exact sum over the rows that have a key. *)
Lemma total_groups (ks : list K) (df : list R) :
  NoDup ks ->
  (forall r k, r ∈ df -> key r = Some k -> k ∈ ks) ->
  total ((fun k => total (f <$> group_rows key df k)) <$> ks)
  = total (f <$> filter (fun r => is_Some (key r)) df).
Proof.
  intros Hnd. unfold group_rows. induction df as [|r df IH]; intros Hks.
  - apply total_fmap_zero.
  - assert (IH' := IH (fun r' k Hr' => Hks r' k (list_elem_of_further _ _ _ Hr'))).
    destruct (key r) as [k0|] eqn:Hkey.
    + rewrite (filter_cons_True (fun r => is_Some (key r))) by (by rewrite Hkey).
      rewrite fmap_cons, total_cons, <- IH'.
      rewrite <- (total_fmap_only k0 (f r) ks Hnd) at 1
        by (apply (Hks r); [by left|done]).
      rewrite <- total_fmap_add. apply total_fmap_ext. intros k _.
      rewrite filter_cons. rewrite Hkey.
      destruct (decide (k = k0)) as [->|Hne].
      * by rewrite decide_True, fmap_cons, total_cons.
      * rewrite decide_False by congruence. lia.
    + rewrite (filter_cons_False (fun r => is_Some (key r)))
        by (rewrite Hkey; by intros [? ?]).
      rewrite <- IH'. apply total_fmap_ext. intros k _.
      by rewrite filter_cons_False by (by rewrite Hkey).
Qed.

(** [groupby(keys)[col].sum()] followed by the sum of the column. *)
Lemma sum_groupby (df : list R) :
  Int64.sum ((fun g : K * list R => Int64.sum (f <$> g.2)) <$> groupby leb key df)
  = Int64.sum (f <$> filter (fun r => is_Some (key r)) df).
Proof.
  unfold groupby. rewrite <- list_fmap_compose, !sum_wrap_total.
  rewrite (list_fmap_ext _ (fun k => Int64.wrap (total (f <$> group_rows key df k))))
    by (intros _ k _; simpl; apply sum_wrap_total).
  rewrite wrap_total_wrapped. f_equal. apply total_groups.
  - apply group_keys_NoDup.
  - intros r k Hr Hk. apply elem_of_group_keys. by exists r.
Qed.
End GroupTotals.

(** X9. The aggregation of the inventory keeps the totals: the stock and the
    open purchase orders of the aggregated inventory sum to those of the
    inventory rows that have a city, a description and a code (int64
    arithmetic on both sides); rows with a missing key cell are left out. *)
Theorem inventory_agg_totals (Inventory_df : list Inventory.row) :
  Int64.sum (InventoryAgg.WarehouseQtyAvailable <$> inventory_agg Inventory_df)
  = Int64.sum (Inventory.WarehouseQtyAvailable <$> keyed Inventory_df)
  /\ Int64.sum (InventoryAgg.OpenPoQuantity <$> inventory_agg Inventory_df)
     = Int64.sum (Inventory.OpenPoQuantity <$> keyed Inventory_df).
Proof.
  unfold inventory_agg, keyed. rewrite <- !list_fmap_compose. split.
  - apply (sum_groupby key3_leb inventory_key Inventory.WarehouseQtyAvailable).
  - apply (sum_groupby key3_leb inventory_key Inventory.OpenPoQuantity).
Qed.

Lemma inventory_agg_of_key (Inventory_df : list Inventory.row) (k : key3) :
  k ∈ group_keys key3_leb inventory_key Inventory_df ->
  exists a, a ∈ inventory_agg Inventory_df /\ InventoryAgg.SkuCode a = k.2.
Proof.
  intros Hk. unfold inventory_agg, groupby. rewrite <- list_fmap_compose.
  eexists. split; [apply list_elem_of_fmap; exists k; split; [reflexivity|exact Hk]|done].
Qed.

Lemma item_known (Inventory_df : list Inventory.row) (code : string) :
  is_Some (item_to_product_map (inventory_agg Inventory_df) !! code)
  <-> Exists (fun i => Inventory.SkuCode i = Some code) (keyed Inventory_df).
Proof.
  rewrite Exists_exists. unfold keyed. setoid_rewrite list_elem_of_filter. split.
  - intros [p Hp]. apply item_to_product_map_Some in Hp as (a & Ha & <- & <-).
    apply inventory_agg_row in Ha as (i & Hi & Hk). exists i.
    split; [split; [by rewrite Hk|done]|].
    by apply inventory_key_Some in Hk as (_ & _ & ?).
  - intros (i & [[k Hk] Hi] & Hcode).
    assert (Hcode' : k.2 = code).
    { apply inventory_key_Some in Hk as (_ & _ & Hs). congruence. }
    unfold item_to_product_map. rewrite foldl_insert_lookup.
    destruct (last (filter _ (inventory_agg Inventory_df))) as [a|] eqn:Hlast; [done|].
    exfalso. apply last_None in Hlast.
    assert (Hin : k ∈ group_keys key3_leb inventory_key Inventory_df)
      by (apply elem_of_group_keys; by exists i).
    destruct (inventory_agg_of_key Inventory_df k Hin) as (a & Ha & Hcode'').
    assert (Hin' := proj2 (list_elem_of_filter (fun r => InventoryAgg.SkuCode r = code) _ _)
                      (conj (eq_trans Hcode'' Hcode') Ha)).
    rewrite Hlast in Hin'. by apply elem_of_nil in Hin'.
Qed.

Lemma sales_key_counted (Inventory_df : list Inventory.row) (r : Sales.row) :
  is_Some (sales_key
             (assign_product_name (item_to_product_map (inventory_agg Inventory_df)) r))
  <-> counted Inventory_df r.
Proof.
  unfold counted, sales_key. simpl.
  destruct (Sales.CITY r) as [c|]; simpl.
  2:{ split; [by intros [? ?]|by intros [[? ?] _]]. }
  destruct (Sales.ITEM_CODE r) as [code|] eqn:Hcode; simpl.
  2:{ split; [by intros [? ?]|by intros (_ & [? ?] & _)]. }
  rewrite <- item_known.
  destruct (item_to_product_map (inventory_agg Inventory_df) !! code) as [p|]; simpl.
  - split; [by eauto|by eauto].
  - split; [by intros [? ?]|by intros (_ & _ & [? ?])].
Qed.

(** X10. The aggregated sales account for the units of the window, and for
    nothing else: their UNITS_SOLD sum to the units of the records of the
    window that name a city and an item code of the inventory (int64
    arithmetic on both sides).  Records without a city, without an item
    code or of an item that the inventory does not list are left out. *)
Theorem sales_selected_totals (Sales_df : list Sales.row)
    (Inventory_df : list Inventory.row) (x : Z) :
  Int64.sum (SalesGrouped.UNITS_SOLD <$> sales_selected Sales_df Inventory_df x)
  = Int64.sum (Sales.UNITS_SOLD
               <$> filter (counted Inventory_df) (filter_recent Sales_df x)).
Proof.
  unfold sales_selected, sales_filtered_grouped_df.
  rewrite <- list_fmap_compose, filter_recent_named.
  etransitivity; [apply (sum_groupby key3_leb sales_key Sales.UNITS_SOLD)|]. f_equal.
  induction (filter_recent Sales_df x) as [|r l IH]; [done|].
  rewrite fmap_cons, !filter_cons.
  destruct (decide (counted Inventory_df r)) as [Hc|Hc].
  - rewrite decide_True by (by apply sales_key_counted).
    rewrite !fmap_cons. by f_equal.
  - rewrite decide_False by (by rewrite sales_key_counted). done.
Qed.

(** ** The custom view: selections with "All", products only, options *)

Lemma is_empty_false (raw : list string) : raw <> [] -> is_empty raw = false.
Proof. intros Hne. by apply bool_decide_eq_false_2. Qed.

Lemma elem_of_resolve (all raw : list string) (v : string) :
  v ∈ all -> v ∈ resolve all raw <-> "All" ∈ raw \/ raw = [] \/ v ∈ raw.
Proof.
  intros Hall. unfold resolve.
  destruct (bool_decide_reflect ("All" ∈ raw)) as [HAll|HAll]; simpl; [tauto|].
  destruct (bool_decide_reflect (raw = [])) as [Hnil|Hnil]; [tauto|tauto].
Qed.

Lemma recalculate_product_rows (x : Z) (p : string) (l : list Final.row) :
  filter (fun m => Merged.PRODUCT_NAME m = p) (recalculate x <$> l)
  = recalculate x <$> filter (fun r => Final.PRODUCT_NAME r = p) l.
Proof.
  induction l as [|r l IH]; [done|].
  rewrite fmap_cons, !filter_cons. simpl.
  destruct (decide (Final.PRODUCT_NAME r = p)); by rewrite IH.
Qed.

(** X11. With a product selection that is not empty and no city selected,
    the custom view is the table grouped by product: one row for every
    product name of the final table that is selected (every product name
    when "All" is selected), in ascending order; the row's UNITS_SOLD,
    WAREHOUSE_QTY and OPEN_PO_QUANTITY are summed over all the rows of that
    product in the final table, across the cities, and its DOI is computed
    from these sums. *)
Theorem product_view_regroups (final : list Final.row) (x : Z) (products : list string) :
  products <> [] ->
  exists grouped,
    custom_doi_view final x [] products = ByProduct grouped
    /\ NoDup (Grouped.label <$> grouped)
    /\ StronglySorted (fun a b => String.leb a b = true) (Grouped.label <$> grouped)
    /\ (forall p, p ∈ Grouped.label <$> grouped
                  <-> p ∈ Final.PRODUCT_NAME <$> final /\ ("All" ∈ products \/ p ∈ products))
    /\ forall g, g ∈ grouped -> product_aggregate final x g.
Proof.
  intros Hne. unfold custom_doi_view.
  rewrite (is_empty_false _ Hne), resolve_nil. simpl.
  set (selected := resolve (all_products final) products).
  set (filtered := filtered_df final (all_cities final) selected).
  assert (Hcity : forall r, r ∈ final -> Final.CITY r ∈ all_cities final).
  { intros r Hr. apply elem_of_all_cities. by apply list_elem_of_fmap_2. }
  assert (Hsel : forall p, p ∈ Final.PRODUCT_NAME <$> final ->
                           p ∈ selected <-> "All" ∈ products \/ p ∈ products).
  { intros p Hp. unfold selected. rewrite elem_of_resolve by (by apply elem_of_all_products).
    tauto. }
  assert (Hlabel : forall p,
    p ∈ Grouped.label <$> regroup Merged.PRODUCT_NAME x (recalculate x <$> filtered)
    <-> p ∈ Final.PRODUCT_NAME <$> final /\ ("All" ∈ products \/ p ∈ products)).
  { intros p. rewrite regroup_labels, elem_of_sort_by, elem_of_drop_duplicates.
    rewrite <- list_fmap_compose, !list_elem_of_fmap. unfold filtered, filtered_df.
    setoid_rewrite list_elem_of_filter. simpl. split.
    - intros (r & -> & [_ Hin] & Hr).
      assert (Hp : Final.PRODUCT_NAME r ∈ Final.PRODUCT_NAME <$> final)
        by (by apply list_elem_of_fmap_2).
      split; [by exists r|]. by apply Hsel.
    - intros [(r & -> & Hr) Hin]. exists r. split; [done|]. split; [|done].
      split; [by apply Hcity|]. apply Hsel; [by apply list_elem_of_fmap_2|done]. }
  eexists. split; [reflexivity|]. split; [|split; [|split; [exact Hlabel|]]].
  - rewrite regroup_labels. apply NoDup_sort_by, NoDup_drop_duplicates.
  - rewrite regroup_labels. apply sort_by_sorted.
    + apply String.leb_total.
    + apply str_leb_trans.
  - intros g Hg. unfold product_aggregate.
    assert (Hin : Grouped.label g ∈ Final.PRODUCT_NAME <$> final
                  /\ ("All" ∈ products \/ Grouped.label g ∈ products))
      by (apply Hlabel; by apply list_elem_of_fmap_2).
    destruct (regroup_row _ _ _ _ Hg) as (HU & HW & HP & HD & HDOI).
    rewrite recalculate_product_rows in HU, HW, HP.
    rewrite <- list_fmap_compose in HU, HW, HP.
    assert (Hrows : filter (fun r => Final.PRODUCT_NAME r = Grouped.label g) filtered
                    = filter (fun r => Final.PRODUCT_NAME r = Grouped.label g) final).
    { unfold filtered, filtered_df. rewrite list_filter_filter.
      apply filter_ext_elem. intros r Hr. split; [tauto|].
      intros Heq. split; [done|]. split; [by apply Hcity|].
      rewrite Heq. apply Hsel; tauto. }
    rewrite Hrows in HU, HW, HP. auto.
Qed.

Lemma product_view_regroups_witness :
  ["Widget"] <> []
  /\ exists grouped,
       custom_doi_view (final_df sample_sales sample_inventory 7) 7 [] ["Widget"]
       = ByProduct grouped
       /\ NoDup (Grouped.label <$> grouped)
       /\ StronglySorted (fun a b => String.leb a b = true) (Grouped.label <$> grouped)
       /\ (forall p, p ∈ Grouped.label <$> grouped
                     <-> p ∈ Final.PRODUCT_NAME <$> final_df sample_sales sample_inventory 7
                         /\ ("All" ∈ ["Widget"] \/ p ∈ ["Widget"]))
       /\ forall g, g ∈ grouped ->
            product_aggregate (final_df sample_sales sample_inventory 7) 7 g.
Proof. split; [done|]. by apply product_view_regroups. Defined.

(** X12. With a city selection that is not empty and no product selected,
    the custom view is the table grouped by city, with one row for every
    city of the final table that is selected; a selection that holds "All"
    selects every city, whatever else it holds.  Each row aggregates all the
    rows of its city in the final table. *)
Theorem city_view_any_selection (final : list Final.row) (x : Z) (cities : list string) :
  cities <> [] ->
  exists grouped,
    custom_doi_view final x cities [] = ByCity grouped
    /\ (forall c, c ∈ Grouped.label <$> grouped
                  <-> c ∈ Final.CITY <$> final /\ ("All" ∈ cities \/ c ∈ cities))
    /\ ("All" ∈ cities -> Grouped.label <$> grouped = all_cities final)
    /\ forall g, g ∈ grouped -> city_aggregate final x g.
Proof.
  intros Hne. unfold custom_doi_view.
  rewrite (is_empty_false _ Hne), resolve_nil. simpl.
  set (selected := resolve (all_cities final) cities).
  set (filtered := filtered_df final selected (all_products final)).
  assert (Hprod : forall r, r ∈ final -> Final.PRODUCT_NAME r ∈ all_products final).
  { intros r Hr. apply elem_of_all_products. by apply list_elem_of_fmap_2. }
  assert (Hsel : forall c, c ∈ Final.CITY <$> final ->
                           c ∈ selected <-> "All" ∈ cities \/ c ∈ cities).
  { intros c Hc. unfold selected. rewrite elem_of_resolve by (by apply elem_of_all_cities).
    tauto. }
  assert (Hlabel : forall c,
    c ∈ Grouped.label <$> regroup Merged.CITY x (recalculate x <$> filtered)
    <-> c ∈ Final.CITY <$> final /\ ("All" ∈ cities \/ c ∈ cities)).
  { intros c. rewrite regroup_labels, elem_of_sort_by, elem_of_drop_duplicates.
    rewrite <- list_fmap_compose, !list_elem_of_fmap. unfold filtered, filtered_df.
    setoid_rewrite list_elem_of_filter. simpl. split.
    - intros (r & -> & [Hin _] & Hr).
      assert (Hc : Final.CITY r ∈ Final.CITY <$> final) by (by apply list_elem_of_fmap_2).
      split; [by exists r|]. by apply Hsel.
    - intros [(r & -> & Hr) Hin]. exists r. split; [done|]. split; [|done].
      split; [|by apply Hprod]. apply Hsel; [by apply list_elem_of_fmap_2|done]. }
  eexists. split; [reflexivity|]. split; [exact Hlabel|]. split.
  - intros HAll. rewrite regroup_labels, <- list_fmap_compose. unfold all_cities.
    do 2 f_equal. unfold filtered, filtered_df.
    rewrite (filter_ext_elem _ (fun _ => True)); [by rewrite filter_all|].
    intros r Hr. split; [done|]. intros _. split; [|by apply Hprod].
    apply Hsel; [by apply list_elem_of_fmap_2|by left].
  - intros g Hg. unfold city_aggregate.
    assert (Hin : Grouped.label g ∈ Final.CITY <$> final
                  /\ ("All" ∈ cities \/ Grouped.label g ∈ cities))
      by (apply Hlabel; by apply list_elem_of_fmap_2).
    destruct (regroup_row _ _ _ _ Hg) as (HU & HW & HP & HD & HDOI).
    rewrite recalculate_city_rows in HU, HW, HP.
    rewrite <- list_fmap_compose in HU, HW, HP.
    unfold filtered in HU, HW, HP.
    rewrite (city_rows_of_selection _ _ _ _ (proj2 (Hsel _ (proj1 Hin)) (proj2 Hin)) Hprod)
      in HU, HW, HP.
    auto.
Qed.

Lemma city_view_any_selection_witness :
  ["All"; "PUNE"] <> []
  /\ exists grouped,
       custom_doi_view (final_df sample_sales sample_inventory 7) 7 ["All"; "PUNE"] []
       = ByCity grouped
       /\ (forall c, c ∈ Grouped.label <$> grouped
                     <-> c ∈ Final.CITY <$> final_df sample_sales sample_inventory 7
                         /\ ("All" ∈ ["All"; "PUNE"] \/ c ∈ ["All"; "PUNE"]))
       /\ ("All" ∈ ["All"; "PUNE"] ->
           Grouped.label <$> grouped = all_cities (final_df sample_sales sample_inventory 7))
       /\ forall g, g ∈ grouped ->
            city_aggregate (final_df sample_sales sample_inventory 7) 7 g.
Proof. split; [done|]. by apply city_view_any_selection. Defined.

(** X13. With both selections not empty, the custom view is the detail
    table: the rows of the final table, unchanged and in their order, whose
    city and product are selected, where a selection holding "All" selects
    everything.  With "All" on both sides it is the whole final table. *)
Theorem detail_view_any_selection (Sales_df : list Sales.row)
    (Inventory_df : list Inventory.row) (x : Z) (cities products : list string) :
  cities <> [] ->
  products <> [] ->
  custom_doi_view (final_df Sales_df Inventory_df x) x cities products
  = Detail
      (filter (fun r => ("All" ∈ cities \/ Final.CITY r ∈ cities)
                        /\ ("All" ∈ products \/ Final.PRODUCT_NAME r ∈ products))
         (final_df Sales_df Inventory_df x)).
Proof.
  intros Hc Hp. unfold custom_doi_view.
  rewrite (is_empty_false _ Hc), (is_empty_false _ Hp). simpl. f_equal.
  rewrite <- list_fmap_compose. unfold filtered_df.
  set (final := final_df Sales_df Inventory_df x).
  transitivity (filter (fun r => Final.CITY r ∈ resolve (all_cities final) cities
                                 /\ Final.PRODUCT_NAME r ∈ resolve (all_products final) products)
                  final).
  - rewrite <- (list_fmap_id (filter _ _)) at 2.
    apply Forall_fmap_ext, Forall_forall. intros r Hr.
    apply list_elem_of_filter in Hr as [_ Hr].
    simpl. apply recalculate_fixed. by apply (final_df_row Sales_df Inventory_df).
  - apply filter_ext_elem. intros r Hr.
    rewrite (elem_of_resolve (all_cities final))
      by (apply elem_of_all_cities; by apply list_elem_of_fmap_2).
    rewrite (elem_of_resolve (all_products final))
      by (apply elem_of_all_products; by apply list_elem_of_fmap_2).
    tauto.
Qed.

Lemma detail_view_any_selection_witness :
  ["All"] <> [] /\ ["Widget"; "All"] <> []
  /\ custom_doi_view (final_df sample_sales sample_inventory 7) 7 ["All"] ["Widget"; "All"]
     = Detail (final_df sample_sales sample_inventory 7).
Proof.
  split; [done|]. split; [done|].
  rewrite (detail_view_any_selection sample_sales sample_inventory 7 ["All"] ["Widget"; "All"])
    by done.
  vm_compute. reflexivity.
Defined.

(** X14. The options of the two selectors: the products offered are the
    product names of the final table, restricted to the rows of the selected
    cities when the city selection is explicit (not empty, without "All");
    the cities offered are those of the final table, restricted likewise by
    an explicit product selection.  Either list is free of duplicates.  So
    every option has a row to show. *)
Theorem available_options (final : list Final.row) (cities products : list string) :
  (forall p, p ∈ available_products final cities
             <-> exists r, r ∈ final /\ Final.PRODUCT_NAME r = p
                           /\ (explicit cities = true -> Final.CITY r ∈ cities))
  /\ (forall c, c ∈ available_cities final products
                <-> exists r, r ∈ final /\ Final.CITY r = c
                              /\ (explicit products = true -> Final.PRODUCT_NAME r ∈ products))
  /\ NoDup (available_products final cities)
  /\ NoDup (available_cities final products).
Proof.
  unfold available_products, available_cities, all_products, all_cities.
  split; [|split; [|split]].
  - intros p. destruct (explicit cities);
      rewrite elem_of_sort_by, elem_of_drop_duplicates, list_elem_of_fmap.
    + setoid_rewrite list_elem_of_filter. split.
      * intros (r & -> & Hc & Hr). by exists r.
      * intros (r & Hr & <- & Hc). exists r. auto.
    + split.
      * intros (r & -> & Hr). by exists r.
      * intros (r & Hr & <- & _). by exists r.
  - intros c. destruct (explicit products);
      rewrite elem_of_sort_by, elem_of_drop_duplicates, list_elem_of_fmap.
    + setoid_rewrite list_elem_of_filter. split.
      * intros (r & -> & Hp & Hr). by exists r.
      * intros (r & Hr & <- & Hp). exists r. auto.
    + split.
      * intros (r & -> & Hr). by exists r.
      * intros (r & Hr & <- & _). by exists r.
  - destruct (explicit cities); apply NoDup_sort_by, NoDup_drop_duplicates.
  - destruct (explicit products); apply NoDup_sort_by, NoDup_drop_duplicates.
Qed.

(** ** The run, the columns of the files and the number of dates *)

Lemma run_inr_columns (Sales_df : Csv Sales.row) (Inventory_df : Csv Inventory.row) (x : Z)
    (grouped : list SalesGrouped.row) :
  run_aggregation Sales_df Inventory_df x = inr grouped ->
  (forall c, c ∈ required_inventory_columns -> c ∈ columns Inventory_df)
  /\ (forall c, c ∈ required_sales_columns -> c ∈ columns Sales_df)
  /\ (7 <= unique_days (rows Sales_df))%nat.
Proof.
  intros Hrun. unfold run_aggregation in Hrun.
  destruct (lookup_columns_cases (columns Inventory_df) ["City"; "SkuDescription"; "SkuCode"])
    as [[He H1]|(n & He & _)]; rewrite He in Hrun; simpl in Hrun; [clear He|discriminate].
  destruct (select_columns_cases (columns Inventory_df)
              ["OpenPoQuantity"; "WarehouseQtyAvailable"])
    as [[He H2]|(ms & He & _)]; rewrite He in Hrun; simpl in Hrun; [clear He|discriminate].
  destruct (lookup_columns_cases (columns Sales_df) ["ITEM_CODE"])
    as [[He H3]|(n & He & _)]; rewrite He in Hrun; simpl in Hrun; [clear He|discriminate].
  destruct (lookup_columns_cases (columns Sales_df) ["ORDERED_DATE"])
    as [[He H4]|(n & He & _)]; rewrite He in Hrun; simpl in Hrun; [clear He|discriminate].
  unfold number_input in Hrun.
  destruct (Z.ltb_spec (Z.of_nat (unique_days (rows Sales_df))) 7) as [?|Hdays];
    simpl in Hrun; [discriminate|].
  destruct (lookup_columns_cases ("PRODUCT_NAME" :: columns Sales_df)
              ["CITY"; "PRODUCT_NAME"; "ITEM_CODE"])
    as [[He H5]|(n & He & _)]; rewrite He in Hrun; simpl in Hrun; [clear He|discriminate].
  destruct (lookup_columns_cases ("PRODUCT_NAME" :: columns Sales_df) ["UNITS_SOLD"])
    as [[He H6]|(n & He & _)]; rewrite He in Hrun; simpl in Hrun; [clear He|discriminate].
  split; [|split; [|lia]]; intros c Hreq.
  - unfold required_inventory_columns in Hreq. rewrite !elem_of_cons in Hreq.
    destruct Hreq as [->|[->|[->|[->|[->|Hnil]]]]];
      [apply H1|apply H1|apply H1|apply H2|apply H2|by apply elem_of_nil in Hnil];
      rewrite !elem_of_cons; tauto.
  - unfold required_sales_columns in Hreq. rewrite !elem_of_cons in Hreq.
    destruct Hreq as [->|[->|[->|[->|Hnil]]]]; [| | | |by apply elem_of_nil in Hnil].
    + apply H3. by left.
    + apply H4. by left.
    + assert (Hin : "CITY" ∈ "PRODUCT_NAME" :: columns Sales_df)
        by (apply H5; by left).
      apply elem_of_cons in Hin as [?|?]; [discriminate|done].
    + assert (Hin : "UNITS_SOLD" ∈ "PRODUCT_NAME" :: columns Sales_df)
        by (apply H6; by left).
      apply elem_of_cons in Hin as [?|?]; [discriminate|done].
Qed.

(** X15. The script gets through its column look-ups, its number input and
    its two aggregations (lines 17 to 47) exactly when the inventory file
    has the columns City, SkuDescription, SkuCode, OpenPoQuantity and
    WarehouseQtyAvailable, the sales file has ITEM_CODE, ORDERED_DATE, CITY
    and UNITS_SOLD, and the sales file holds at least 7 distinct dates: the
    number input is created with the default 7, which must not lie above
    the number of dates.  Further columns, the order of the columns and a
    PRODUCT_NAME column of the sales file make no difference.  The value is
    then the grouped sales of the window, the cities as spelled. *)
Theorem run_succeeds_iff (Sales_df : Csv Sales.row) (Inventory_df : Csv Inventory.row)
    (x : Z) :
  ((exists grouped, run_aggregation Sales_df Inventory_df x = inr grouped)
   <-> (forall c, c ∈ required_inventory_columns -> c ∈ columns Inventory_df)
       /\ (forall c, c ∈ required_sales_columns -> c ∈ columns Sales_df)
       /\ (7 <= unique_days (rows Sales_df))%nat)
  /\ forall grouped,
       run_aggregation Sales_df Inventory_df x = inr grouped ->
       grouped
       = sales_grouped_as_spelled
           (filter_recent (named_sales (rows Sales_df) (rows Inventory_df)) x).
Proof.
  split; [split|].
  - intros [grouped Hrun]. by eapply run_inr_columns.
  - intros (HI & HS & Hdays). eexists. by apply run_ok.
  - intros grouped Hrun. destruct (run_inr_columns _ _ _ _ Hrun) as (HI & HS & Hdays).
    rewrite (run_ok _ _ x HI HS Hdays) in Hrun. by injection Hrun as <-.
Qed.

(** ** One row per inventory item *)

Lemma case_consistent_spec (Sales_df : list Sales.row) :
  case_consistent Sales_df = true -> no_case_variants Sales_df.
Proof.
  unfold case_consistent, no_case_variants. rewrite forallb_forall.
  intros Hall r1 r2 c1 c2 Hr1 Hr2 Hc1 Hc2 Hup.
  apply list_elem_of_In in Hr1, Hr2.
  specialize (Hall r1 Hr1). rewrite forallb_forall in Hall. specialize (Hall r2 Hr2).
  rewrite Hc1, Hc2 in Hall. apply (proj2 (String.eqb_eq _ _)) in Hup.
  rewrite Hup in Hall. by apply String.eqb_eq.
Qed.

Lemma inventory_part_filter (Q : InventoryRenamed.row -> Prop) `{!forall l, Decision (Q l)}
    (merged : list Merged.row) :
  inventory_part <$> filter (fun m => Q (inventory_part m)) merged
  = filter Q (inventory_part <$> merged).
Proof.
  induction merged as [|m merged IH]; [done|].
  rewrite fmap_cons, !filter_cons.
  destruct (decide (Q (inventory_part m))); [rewrite fmap_cons|]; by rewrite IH.
Qed.

(** X16. When the cities of the sales file are written in ASCII and no two
    of them differ in letter case only, the final table has one row for
    every aggregated inventory row whose product name is not excluded, and
    no other row: its inventory columns are these rows, up to the order of
    the table.  No (CITY, PRODUCT_NAME, ITEM_CODE) stands on two rows of the
    final table.  (On ASCII cities [str_upper] is Python's [upper()], so
    that [no_case_variants] speaks of the cities that line 48 makes equal.) *)
Theorem final_df_one_row_per_item (Sales_df : list Sales.row)
    (Inventory_df : list Inventory.row) (x : Z) :
  ascii_cities Sales_df = true ->
  no_case_variants Sales_df ->
  final_inventory_part <$> final_df Sales_df Inventory_df x
  ≡ₚ exclusion_filter (fun l => Some (InventoryRenamed.PRODUCT_NAME l))
       (inventory_renamed (inventory_agg Inventory_df))
  /\ NoDup (inventory_join_key <$> (final_inventory_part <$> final_df Sales_df Inventory_df x)).
Proof.
  intros _ Hcase.
  assert (Hperm : final_inventory_part <$> final_df Sales_df Inventory_df x
                  ≡ₚ exclusion_filter (fun l => Some (InventoryRenamed.PRODUCT_NAME l))
                       (inventory_renamed (inventory_agg Inventory_df))).
  { unfold final_df, final_of, sort_values. rewrite sort_by_perm.
    rewrite <- list_fmap_compose.
    rewrite (list_fmap_ext (final_inventory_part ∘ project_final) inventory_part)
      by (by intros _ [] _).
    unfold merged_kept, exclusion_filter.
    rewrite <- (merged_df_once_per_inventory_row Sales_df Inventory_df x Hcase).
    by rewrite <- inventory_part_filter. }
  split; [exact Hperm|]. rewrite Hperm. unfold exclusion_filter.
  eapply sublist_NoDup; [apply inventory_renamed_keys_NoDup|].
  apply fmap_sublist, sublist_filter.
Qed.

Lemma final_df_one_row_per_item_witness :
  ascii_cities sample_sales = true
  /\ length (final_df sample_sales sample_inventory 7) = 2%nat
  /\ NoDup (inventory_join_key
            <$> (final_inventory_part <$> final_df sample_sales sample_inventory 7)).
Proof.
  split; [vm_compute; reflexivity|]. split; [vm_compute; reflexivity|].
  apply (final_df_one_row_per_item sample_sales sample_inventory 7).
  - vm_compute. reflexivity.
  - apply case_consistent_spec. vm_compute. reflexivity.
Defined.
